(** * Vision OCR: the browser client, the extraction pipeline and the image

    The development follows the repository:

    - [frontend/src/App.tsx], the React component [App]: its [useState]
      cells, its three [useEffect] hooks and its event handlers, embedded
      as computations over an explicit [World];
    - the backend [Dockerfile], embedded as the list of packages its
      [apt-get install] names;
    - the server-side extraction pipeline ([main.py]), which the image
      copies in but which is described only by the design document. *)

From Stdlib Require Import String Ascii ZArith List Bool QArith Qround
  DecimalString Lia.
Import ListNotations.

Open Scope string_scope.
Open Scope Z_scope.

(** ** The pieces of the JavaScript platform that [App] calls *)

Module JS.

(** [s.indexOf(pat)]: the position of the first occurrence, or -1. *)
Definition indexOf (s pat : string) : Z :=
  match String.index 0 pat s with
  | Some n => Z.of_nat n
  | None => -1
  end.

(** [xs.includes(x)] on an array of strings. *)
Fixpoint includes (xs : list string) (x : string) : bool :=
  match xs with
  | [] => false
  | y :: ys => if String.eqb y x then true else includes ys x
  end.

(** [a || b] where [a] is a string that may be undefined: the empty
    string and [undefined] are both falsy. *)
Definition or_else (a : option string) (b : string) : string :=
  match a with
  | Some "" | None => b
  | Some s => s
  end.

(** An integer Number interpolated in a template literal. *)
Definition number_to_string (n : Z) : string :=
  NilZero.string_of_int (Z.to_int n).

(** [Math.floor(x)] on a rational. *)
Definition floor (x : Q) : Z := Qfloor x.

(** A thrown value: an [Error] object with its [name] and [message]. *)
Record exn := { err_name : string; err_message : string }.

Definition Error (msg : string) : exn :=
  {| err_name := "Error"; err_message := msg |}.
Definition TypeError (msg : string) : exn :=
  {| err_name := "TypeError"; err_message := msg |}.

(** What [JSON.parse] can build.  A number keeps its lexeme. *)
#[local] Set Warnings "-register-all".
Inductive JSON :=
| JNull
| JBool (b : bool)
| JNumber (lexeme : string)
| JString (s : string)
| JArray (xs : list JSON)
| JObject (fields : list (string * JSON)).

(** A run-time value as far as this component sees one: the result of
    reading a property is [undefined] or something parsed from JSON. *)
Inductive value :=
| Undefined
| Of (j : JSON).

Definition Str (s : string) : value := Of (JString s).

(** An own property of an object literal; when a key is repeated
    [JSON.parse] keeps the last one. *)
Fixpoint own_property (fields : list (string * JSON)) (key : string)
  : value :=
  match fields with
  | [] => Undefined
  | (k, v) :: rest =>
      match own_property rest key with
      | Undefined => if String.eqb k key then Of v else Undefined
      | found => found
      end
  end.

(** [data.text]: reading a property of [null] throws, an object gives
    its own property, and no other JSON value has a [text] property. *)
Definition get_text (data : JSON) : value + exn :=
  match data with
  | JNull =>
      inr (TypeError "Cannot read properties of null (reading 'text')")
  | JObject fields => inl (own_property fields "text")
  | _ => inl Undefined
  end.

Record Blob := { blob_type : string; blob_bytes : list Byte.byte }.

Record File := {
  name : string;
  type : string;
  bytes : list Byte.byte
}.

(** [new File([blob], name, {type})].  The [type] option is taken from
    a Blob here, hence already in the platform's normal form. *)
Definition new_File (blob : Blob) (nm ty : string) : File :=
  {| name := nm; type := ty; bytes := blob_bytes blob |}.

(** One entry of [clipboardData.items]. *)
Record DataTransferItem := {
  item_type : string;
  getAsFile : option Blob   (* null for an entry that is not a file *)
}.

End JS.
Import JS.

(** ** The component's state and what it emits *)

Inductive ToastType := toast_success | toast_error.

Record Toast := { message : string; toast_type : ToastType }.

(** The [useState] cells of [App], in declaration order. *)
Record AppState := {
  file : option File;
  extractedText : value;
  loading : bool;
  progress : Z;
  isDragging : bool;
  toast : option Toast
}.

(** The argument of [fetch]: the URL and the [init] object, whose body
    is a [FormData], a list of named parts. *)
Record Request := {
  url : string;
  method : string;
  body : list (string * File)
}.

(** What the component sends out: requests, alerts, console errors,
    and the toasts it raises. *)
Inductive Effect :=
| Fetch (req : Request)
| Alert (msg : string)
| ConsoleError (e : exn)
| ShowToast (t : Toast).

(** The state cells together with what React and the browser keep for
    the component between two handlers. *)
Record World := {
  ui : AppState;
  (** the [loading] the progress effect last ran for; [None] before the
      first render *)
  rendered_loading : option bool;
  (** the timer held in [interval], with its period in ms *)
  interval : option Z;
  (** [toast] was set to a new object since the toast effect last ran *)
  toast_changed : bool;
  (** the timer of the toast effect, with its delay in ms *)
  toast_timer : option Z;
  (** outputs, oldest first *)
  trace : list Effect
}.

(** ** Computations: state, exceptions and promises that are pending *)

(** How a piece of code ends: with a value, by throwing, or (an [async]
    function only) still waiting for a promise at the end of the run. *)
Inductive completion (A : Type) :=
| Normal (a : A)
| Thrown (e : exn)
| Suspended.
Arguments Normal {A} a.
Arguments Thrown {A} e.
Arguments Suspended {A}.

Definition M (A : Type) : Type := World -> completion A * World.

Definition ret {A} (a : A) : M A := fun w => (Normal a, w).

Definition bind {A B} (c : M A) (k : A -> M B) : M B :=
  fun w =>
    match c w with
    | (Normal a, w1) => k a w1
    | (Thrown e, w1) => (Thrown e, w1)
    | (Suspended, w1) => (Suspended, w1)
    end.

Definition throw {A} (e : exn) : M A := fun w => (Thrown e, w).

Declare Scope js_scope.
Delimit Scope js_scope with js.
Notation "x <- c1 ;; c2" := (bind c1 (fun x => c2))
  (at level 61, c1 at next level, right associativity) : js_scope.
Notation "c1 ;; c2" := (bind c1 (fun _ => c2))
  (at level 61, right associativity) : js_scope.
Open Scope js_scope.

(** [try { body } catch (e) { handler e } finally { final }].  A function
    suspended inside the [try] block has not reached its handlers. *)
Definition try_catch_finally {A} (body : M A) (handler : exn -> M A)
  (final : M unit) : M A :=
  fun w =>
    let '(r, w1) :=
      match body w with
      | (Thrown e, w0) => handler e w0
      | done => done
      end in
    match r with
    | Suspended => (Suspended, w1)
    | _ =>
        match final w1 with
        | (Normal _, w2) => (r, w2)
        | (Thrown e, w2) => (Thrown e, w2)
        | (Suspended, w2) => (Suspended, w2)
        end
    end.

Definition exec {A} (c : M A) (w : World) : World := snd (c w).

Definition get {A} (f : AppState -> A) : M A := fun w => (Normal (f (ui w)), w).

Definition modify_ui (f : AppState -> AppState) : M unit :=
  fun w =>
    (Normal tt,
     {| ui := f (ui w); rendered_loading := rendered_loading w;
        interval := interval w; toast_changed := toast_changed w;
        toast_timer := toast_timer w; trace := trace w |}).

Definition emit (e : Effect) : M unit :=
  fun w =>
    (Normal tt,
     {| ui := ui w; rendered_loading := rendered_loading w;
        interval := interval w; toast_changed := toast_changed w;
        toast_timer := toast_timer w; trace := trace w ++ [e] |}).

(** *** The setters returned by [useState] *)

Definition setFile (f : option File) : M unit :=
  modify_ui (fun s =>
    {| file := f; extractedText := extractedText s; loading := loading s;
       progress := progress s; isDragging := isDragging s;
       toast := toast s |}).

Definition setExtractedText (t : value) : M unit :=
  modify_ui (fun s =>
    {| file := file s; extractedText := t; loading := loading s;
       progress := progress s; isDragging := isDragging s;
       toast := toast s |}).

Definition setLoading (b : bool) : M unit :=
  modify_ui (fun s =>
    {| file := file s; extractedText := extractedText s; loading := b;
       progress := progress s; isDragging := isDragging s;
       toast := toast s |}).

(** [setProgress] is called with a value and with an updater. *)
Definition setProgress (f : Z -> Z) : M unit :=
  modify_ui (fun s =>
    {| file := file s; extractedText := extractedText s;
       loading := loading s; progress := f (progress s);
       isDragging := isDragging s; toast := toast s |}).

Definition setIsDragging (b : bool) : M unit :=
  modify_ui (fun s =>
    {| file := file s; extractedText := extractedText s;
       loading := loading s; progress := progress s; isDragging := b;
       toast := toast s |}).

(** An object literal is a new object, so setting one always changes the
    cell; setting [null] over [null] does not. *)
Definition setToast (t : option Toast) : M unit :=
  fun w =>
    let changed :=
      match t, toast (ui w) with
      | None, None => toast_changed w
      | _, _ => true
      end in
    let s := ui w in
    (Normal tt,
     {| ui := {| file := file s; extractedText := extractedText s;
                 loading := loading s; progress := progress s;
                 isDragging := isDragging s; toast := t |};
        rendered_loading := rendered_loading w; interval := interval w;
        toast_changed := changed; toast_timer := toast_timer w;
        trace := match t with
                 | Some shown => trace w ++ [ShowToast shown]
                 | None => trace w
                 end |}).

(** *** Timers *)

Definition set_timers (i t : option Z) : M unit :=
  fun w =>
    (Normal tt,
     {| ui := ui w; rendered_loading := rendered_loading w; interval := i;
        toast_changed := toast_changed w; toast_timer := t;
        trace := trace w |}).

Definition setInterval (ms : Z) : M unit :=
  fun w => set_timers (Some ms) (toast_timer w) w.
Definition clearInterval : M unit :=
  fun w => set_timers None (toast_timer w) w.
Definition setTimeout (ms : Z) : M unit :=
  fun w => set_timers (interval w) (Some ms) w.
Definition clearTimeout : M unit :=
  fun w => set_timers (interval w) None w.

(** ** The component [App] *)

(** *** The effect that closes a toast (App.tsx, line 51) *)

Definition toastEffect : M unit :=
  t <- get toast;;
  match t with
  | Some _ => setTimeout 3000
  | None => ret tt
  end.

Definition toastCleanup : M unit := clearTimeout.

(** *** The effect that animates the progress (line 61) *)

(** The updater the interval passes to [setProgress]; [u] is what
    [Math.random()] returned.  The product is taken exactly: the rounding
    of the floating-point product is left out. *)
Definition tick (u : Q) (prev : Z) : Z :=
  if prev >=? 95 then prev
  else prev + floor (u * 10) + 1.

Definition progressEffect : M unit :=
  l <- get loading;;
  if l : bool then
    setProgress (fun _ => 0);;
    setInterval 500
  else
    setProgress (fun _ => 100).

Definition progressCleanup : M unit := clearInterval.

(** *** Rendering: React runs the effects whose dependency changed *)

Definition commit : M unit :=
  fun w =>
    (Normal tt,
     {| ui := ui w; rendered_loading := Some (loading (ui w));
        interval := interval w; toast_changed := false;
        toast_timer := toast_timer w; trace := trace w |}).

Definition loading_changed (w : World) : bool :=
  match rendered_loading w with
  | Some l => negb (Bool.eqb l (loading (ui w)))
  | None => true
  end.

Definition render : M unit :=
  fun w =>
    ((if toast_changed w then toastCleanup;; toastEffect else ret tt);;
     (if loading_changed w then progressCleanup;; progressEffect
      else ret tt);;
     commit) w.

(** *** Choosing a file (line 122) *)

Definition validTypes : list string :=
  [ "image/png";
    "image/jpeg";
    "application/pdf";
    "image/bmp";
    "image/tiff" ].

Definition unsupported_message : string :=
  "지원되지 않는 파일 형식입니다. (PNG, JPG, PDF, BMP, TIFF 만 가능)".

Definition validateAndSetFile (selectedFile : File) : M unit :=
  if includes validTypes (type selectedFile) then
    setFile (Some selectedFile);;
    setExtractedText (Str "")
  else
    emit (Alert unsupported_message).

(** *** Pasting from the clipboard (line 78) *)

(** The [for] loop over [items]; [now] is what [new Date().getTime()]
    returns.  The loop is left by [break] only after a file was made. *)
Fixpoint paste_loop (items : list DataTransferItem) (now : Z) : M unit :=
  match items with
  | [] => ret tt
  | item :: rest =>
      if negb (indexOf (item_type item) "image" =? -1) then
        match getAsFile item with
        | Some blob =>
            let pastedFile :=
              new_File blob
                ("pasted_image_" ++ number_to_string now ++ ".png")
                (blob_type blob) in
            validateAndSetFile pastedFile
        | None => paste_loop rest now
        end
      else paste_loop rest now
  end.

(** [clipboardItems] is [e.clipboardData?.items]. *)
Definition handlePaste (clipboardItems : option (list DataTransferItem))
  (now : Z) : M unit :=
  match clipboardItems with
  | None => ret tt
  | Some items => paste_loop items now
  end.

(** *** Dragging and the file input (lines 106 to 144) *)

Definition handleDragOver : M unit := setIsDragging true.

Definition handleDragLeave : M unit := setIsDragging false.

Definition handleDrop (files : list File) : M unit :=
  setIsDragging false;;
  match files with
  | droppedFile :: _ => validateAndSetFile droppedFile
  | [] => ret tt
  end.

(** [files] is [e.target.files]. *)
Definition handleFileSelect (files : option (list File)) : M unit :=
  match files with
  | Some (first :: _) => validateAndSetFile first
  | _ => ret tt
  end.

(** *** What can happen while an extraction is under way

    The buttons are disabled while [loading]; dropping, choosing and
    pasting a file are not, and the timers go on. *)
Inductive Event :=
| Tick (u : Q)
| ToastTimeout
| Paste (clipboardItems : option (list DataTransferItem)) (now : Z)
| DragOver
| DragLeave
| Drop (files : list File)
| FileSelect (files : option (list File)).

Definition dispatch (ev : Event) : M unit :=
  match ev with
  | Tick u =>
      fun w =>
        match interval w with
        | Some _ => setProgress (tick u) w
        | None => ret tt w
        end
  | ToastTimeout =>
      fun w =>
        match toast_timer w with
        | Some _ => (clearTimeout;; setToast None) w
        | None => ret tt w
        end
  | Paste clipboardItems now => handlePaste clipboardItems now
  | DragOver => handleDragOver
  | DragLeave => handleDragLeave
  | Drop files => handleDrop files
  | FileSelect files => handleFileSelect files
  end.

Fixpoint run_events (evs : list Event) : M unit :=
  match evs with
  | [] => ret tt
  | ev :: rest => dispatch ev;; render;; run_events rest
  end.

(** *** Promises and the network *)

(** A promise the component waits for: the events handled before it
    settles, and how it settles ([Suspended]: not within this run). *)
Record Pending (A : Type) := {
  meanwhile : list Event;
  settles : completion A
}.
Arguments meanwhile {A} p.
Arguments settles {A} p.

(** [await p]: the function yields, React renders, other handlers run,
    and the function resumes with the promise's outcome. *)
Definition await {A} (p : Pending A) : M A :=
  render;;
  run_events (meanwhile p);;
  fun w => (settles p, w).

Record Response := {
  status : Z;
  json : Pending JSON   (* [response.json()] *)
}.

Definition ok (r : Response) : bool :=
  (200 <=? status r) && (status r <=? 299).

(** The server and the network between: what becomes of a request. *)
Definition Network : Type := Request -> Pending Response.

Definition fetch (net : Network) (req : Request) : M Response :=
  emit (Fetch req);;
  await (net req).

Definition lift {A} (r : A + exn) : M A :=
  match r with
  | inl a => ret a
  | inr e => throw e
  end.

Definition failure_toast : Toast :=
  {| message := "텍스트 추출 중 오류가 발생했습니다.";
     toast_type := toast_error |}.

Section App.

(** [import.meta.env.VITE_API_URL], fixed when the bundle is built. *)
Variable VITE_API_URL : option string.

(** *** The extraction call (line 146) *)

Definition performOCR (net : Network) : M unit :=
  f <- get file;;
  match f with
  | None => ret tt
  | Some f =>
      setLoading true;;
      let formData := [("file", f)] in
      try_catch_finally
        (let apiUrl := or_else VITE_API_URL "http://localhost:8000" in
         response <- fetch net {| url := apiUrl ++ "/extract-text";
                                  method := "POST";
                                  body := formData |};;
         if negb (ok response) then throw (Error "OCR 요청 실패")
         else
           data <- await (json response);;
           text <- lift (get_text data);;
           setExtractedText text)
        (fun e =>
           emit (ConsoleError e);;
           setToast (Some failure_toast))
        (setLoading false)
  end.

(** *** [reset] (line 217); clearing the file input's value is not
    part of the state *)

Definition reset : M unit :=
  setFile None;;
  setExtractedText (Str "").

(** *** The page as a whole *)

Inductive Action :=
| Background (ev : Event)
| ClickExtract (net : Network)
| ClickReset.

(** [disabled={!file || loading}] on both buttons. *)
Definition buttons_disabled (s : AppState) : bool :=
  match file s with
  | None => true
  | Some _ => loading s
  end.

(** A handler that calls an [async] function gets a promise back at
    once and drops it. *)
Definition detach (c : M unit) : M unit :=
  fun w => (Normal tt, exec c w).

Definition act (a : Action) : M unit :=
  match a with
  | Background ev => dispatch ev
  | ClickExtract net =>
      off <- get buttons_disabled;;
      if off : bool then ret tt else detach (performOCR net)
  | ClickReset =>
      off <- get buttons_disabled;;
      if off : bool then ret tt else reset
  end.

Fixpoint run (actions : list Action) : M unit :=
  match actions with
  | [] => ret tt
  | a :: rest => act a;; render;; run rest
  end.

End App.

(** The cells as [useState] initialises them, and the page after its
    first render. *)
Definition initial : World :=
  {| ui := {| file := None; extractedText := Str ""; loading := false;
              progress := 0; isDragging := false; toast := None |};
     rendered_loading := None;
     interval := None;
     toast_changed := true;
     toast_timer := None;
     trace := [] |}.

Definition mounted : World := exec render initial.

(** ** The backend image (Dockerfile) *)

Module Dockerfile.

Definition base_image : string := "python:3.10-slim".






End Dockerfile.

(** ** The extraction pipeline *)

Module Pipeline.

(** Modelled from the spec: the server program ([main.py], which the
    Dockerfile copies into the image) is not among the sources; every
    definition of this module follows the design document.  This one is
    the error taxonomy of its section 7. *)
Inductive ErrorKind :=
| UnsupportedFormat
| CorruptDocument
| RasterizationFailed
| OcrEngineFailure
| LanguageUnavailable
| InternalError.

(** Modelled from the spec: the language packs of the default
    configuration (4.3); the server's configuration is missing. *)
Inductive Language := Korean | English.

(** Modelled from the spec: the default configuration, Korean and
    English in one pass (4.3). *)
Definition default_languages : list Language := [Korean; English].


(** Modelled from the spec: the data model of section 3, whose types
    are missing with the server. *)
Record UploadedDocument := {
  content : list Byte.byte;
  media_type : string;
  filename : string
}.

(** Modelled from the spec: a rasterized page and its 0-based index
    (section 3). *)
Record PageImage := {
  pixels : list Byte.byte;
  index : nat
}.

(** Modelled from the spec: the result for one page (section 3); a
    failed page carries its error kind. *)
Record PageResult := {
  page_index : nat;
  text : string;
  failure : option ErrorKind
}.

(** Modelled from the spec: the ordered page results and the text
    derived from them (section 3). *)
Record ExtractionResult := {
  pages : list PageResult;
  final_text : string
}.

(** *** Format Classifier (4.1) *)

(** Modelled from the spec: the variants the classifier returns. *)
Inductive Format := Image | PdfDocument | Unsupported.

(** Modelled from the spec: the accepted image types, PNG, JPEG, BMP
    and TIFF, by media type. *)
Definition image_types : list string :=
  [ "image/png"; "image/jpeg"; "image/bmp"; "image/tiff" ].

(** Modelled from the spec: the missing classifier, on the declared
    media type. *)
Definition classify (declared : string) : Format :=
  if includes image_types declared then Image
  else if String.eqb declared "application/pdf" then PdfDocument
  else Unsupported.

(** Modelled from the spec: the separator between two pages, a single
    newline. *)
Definition newline : string := String "010"%char EmptyString.

(** *** Aggregation (4.4, step 4) *)

(** Modelled from the spec: the missing aggregation step; the texts of
    all page results joined in index order, one newline between two
    pages. *)
Definition aggregate (results : list PageResult) : string :=
  String.concat newline (map text results).

Section Orchestrator.

(** The two external capabilities (section 6), as black boxes:
    [(pdf bytes, dpi) -> ordered sequence of page images], with [None]
    for a document that cannot be parsed and, within the sequence,
    [None] for a page that could not be rendered; and
    [(image, languages) -> text], which may fail. *)
Variable render_pdf :
  list Byte.byte -> Z -> option (list (option (list Byte.byte))).
Variable ocr_engine : list Byte.byte -> list Language -> option string.

Variable dpi : Z.
Variable languages : list Language.

(** *** Page Rasterizer (4.2) *)

(** Modelled from the spec: the rendered pages with their indices,
    contiguous from [i]. *)
Fixpoint number_pages (i : nat) (rendered : list (option (list Byte.byte)))
  : list (nat * option PageImage) :=
  match rendered with
  | [] => []
  | page :: rest =>
      (i, match page with
          | Some px => Some {| pixels := px; index := i |}
          | None => None
          end) :: number_pages (S i) rest
  end.

(** Modelled from the spec: the missing rasterizer; an image is its own
    single page, a PDF is rendered, and a PDF that cannot be parsed is
    the fatal [CorruptDocument]. *)
Definition rasterize (fmt : Format) (doc : UploadedDocument)
  : ErrorKind + list (nat * option PageImage) :=
  match fmt with
  | Image => inr [(0%nat, Some {| pixels := content doc; index := 0 |})]
  | PdfDocument =>
      match render_pdf (content doc) dpi with
      | None => inl CorruptDocument
      | Some rendered => inr (number_pages 0 rendered)
      end
  | Unsupported => inl UnsupportedFormat
  end.

(** *** OCR Adapter (4.3) *)

(** Modelled from the spec: the missing adapter; the engine's text, or
    [OcrEngineFailure]. *)
Definition recognize (img : PageImage) : ErrorKind + string :=
  match ocr_engine (pixels img) languages with
  | Some recognized => inr recognized
  | None => inl OcrEngineFailure
  end.

(** *** Extraction Orchestrator (4.4) *)

(** Modelled from the spec: steps 2 and 3 of the missing orchestrator
    for one page; a page that was not rendered, or that the engine
    failed on, is marked failed with empty text, and the loop goes on. *)
Definition process_page (page : nat * option PageImage) : PageResult :=
  match snd page with
  | None =>
      {| page_index := fst page; text := "";
         failure := Some RasterizationFailed |}
  | Some img =>
      match recognize img with
      | inr recognized =>
          {| page_index := fst page; text := recognized;
             failure := None |}
      | inl kind =>
          {| page_index := fst page; text := "";
             failure := Some kind |}
      end
  end.

(** Modelled from the spec: the missing orchestrator, steps 1 to 5;
    only the classifier and the rasterizer can fail the request. *)
Definition extract (doc : UploadedDocument)
  : ErrorKind + ExtractionResult :=
  match classify (media_type doc) with
  | Unsupported => inl UnsupportedFormat
  | fmt =>
      match rasterize fmt doc with
      | inl fatal => inl fatal
      | inr page_images =>
          let results := map process_page page_images in
          inr {| pages := results; final_text := aggregate results |}
      end
  end.

End Orchestrator.

End Pipeline.

(** ** What a trace contains *)

Fixpoint requests (t : list Effect) : list Request :=
  match t with
  | [] => []
  | Fetch req :: rest => req :: requests rest
  | _ :: rest => requests rest
  end.

Fixpoint toasts (t : list Effect) : list Toast :=
  match t with
  | [] => []
  | ShowToast shown :: rest => shown :: toasts rest
  | _ :: rest => toasts rest
  end.

Fixpoint console_errors (t : list Effect) : list exn :=
  match t with
  | [] => []
  | ConsoleError e :: rest => e :: console_errors rest
  | _ :: rest => console_errors rest
  end.


(** The progress after the interval fired for each sample in turn. *)
Definition ticks (us : list Q) (start : Z) : Z :=
  fold_left (fun prev u => tick u prev) us start.

(** The page is at rest: rendered, and no extraction under way. *)
Definition idle (w : World) : Prop :=
  loading (ui w) = false /\ rendered_loading w = Some false.

(** The request [performOCR] sends for the file [f]. *)
Definition extraction_request (api : option string) (f : File) : Request :=
  {| url := or_else api "http://localhost:8000" ++ "/extract-text";
     method := "POST";
     body := [("file", f)] |}.

(** The world when the request of [performOCR] settles: [loading] was
    set, the request went out, and the page handled what came first. *)
Definition sent (api : option string) (net : Network) (f : File)
  (w : World) : World :=
  exec (run_events (meanwhile (net (extraction_request api f))))
    (exec render
       (exec (emit (Fetch (extraction_request api f)))
          (exec (setLoading true) w))).

(** The world when the body of the response [r] settles. *)
Definition received (api : option string) (net : Network) (f : File)
  (w : World) (r : Response) : World :=
  exec (run_events (meanwhile (json r))) (exec render (sent api net f w)).

(** A world in which the call is waiting, for the response or for its
    body. *)
Definition waiting (api : option string) (net : Network) (f : File)
  (w X : World) : Prop :=
  X = sent api net f w \/ exists r, X = received api net f w r.

(** The [catch] block followed by the [finally] block. *)
Definition failed (e : exn) (w : World) : World :=
  exec (setLoading false)
    (exec (setToast (Some failure_toast)) (exec (emit (ConsoleError e)) w)).


(** The media types the upload contract accepts. *)
Definition supported (f : File) : Prop :=
  In (type f)
    ["image/png"; "image/jpeg"; "image/bmp"; "image/tiff";
     "application/pdf"].

(** No file of another type is selected or was ever sent. *)
Definition only_supported (w : World) : Prop :=
  (forall f, file (ui w) = Some f -> supported f) /\
  (forall req part f,
      In req (requests (trace w)) -> In (part, f) (body req) ->
      supported f).

(** A step that selects and sends supported files only, if that was so
    before. *)
Definition keeps_supported (w w' : World) : Prop :=
  only_supported w -> only_supported w'.

(** [respects R c]: every run of [c] takes a world to one related to it
    by [R]. *)
Definition respects (R : World -> World -> Prop) {A} (c : M A) : Prop :=
  forall w, R w (snd (c w)).

(** Nothing was sent, logged or shown, save alerts. *)
Definition same_outputs (w w' : World) : Prop :=
  requests (trace w') = requests (trace w) /\
  toasts (trace w') = toasts (trace w) /\
  console_errors (trace w') = console_errors (trace w).

(** [loading] is as before, and so is what the progress effect last ran
    for once it is up to date. *)
Definition steady (w w' : World) : Prop :=
  loading (ui w') = loading (ui w) /\
  (rendered_loading w = Some (loading (ui w)) ->
   rendered_loading w' = rendered_loading w).

(** The selected file and the extracted text are as before. *)
Definition same_document (w w' : World) : Prop :=
  file (ui w') = file (ui w) /\
  extractedText (ui w') = extractedText (ui w).

(** The progress effect is up to date with [loading]. *)
Definition settled (w : World) : Prop :=
  rendered_loading w = Some (loading (ui w)).

(** Nothing moved the progress or its timer. *)
Definition paused (w w' : World) : Prop :=
  steady w w' /\
  (settled w ->
   progress (ui w') = progress (ui w) /\ interval w' = interval w).

(** The samples of the ticks among some events, in order. *)
Fixpoint samples (evs : list Event) : list Q :=
  match evs with
  | [] => []
  | Tick u :: rest => u :: samples rest
  | _ :: rest => samples rest
  end.


(** ** Sample files, networks and pages *)

Definition scan_png : File :=
  {| name := "scan.png"; type := "image/png"; bytes := [] |}.

Definition setup_exe : File :=
  {| name := "setup.exe"; type := "application/x-msdownload"; bytes := [] |}.

(** The page after [f] was dropped on it. *)
Definition dropped (f : File) : World :=
  exec (run None [Background (Drop [f])]) mounted.

(** A server that answers with a status and a JSON body, at once. *)
Definition answers (code : Z) (data : JSON) : Network :=
  fun _ =>
    {| meanwhile := [];
       settles := Normal {| status := code;
                            json := {| meanwhile := [];
                                       settles := Normal data |} |} |}.

(** A server that has not answered by the end of the run. *)
Definition hangs (evs : list Event) : Network :=
  fun _ => {| meanwhile := evs; settles := Suspended |}.

(** No network: [fetch] rejects. *)
Definition offline : Network :=
  fun _ => {| meanwhile := [];
              settles := Thrown (TypeError "Failed to fetch") |}.


(** ** The paste handler as the claim about it words it *)

(** An entry of the clipboard whose type contains [image]. *)
Definition image_typed (item : DataTransferItem) : bool :=
  negb (indexOf (item_type item) "image" =? -1).

(** The file [handlePaste] makes of a blob. *)
Definition pasted (blob : Blob) (now : Z) : File :=
  {| name := "pasted_image_" ++ number_to_string now ++ ".png";
     type := blob_type blob;
     bytes := blob_bytes blob |}.

(** Only the first entry whose type contains [image] counts: its file
    is validated if it has one, and nothing happens otherwise. *)
Definition paste_uses_first_image_item : Prop :=
  forall items now w first,
    find image_typed items = Some first ->
    exec (handlePaste (Some items) now) w =
    match getAsFile first with
    | Some blob => exec (validateAndSetFile (pasted blob now)) w
    | None => w
    end.

(** A clipboard holding an SVG drawing as text, then a bitmap. *)
Definition svg_text : DataTransferItem :=
  {| item_type := "image/svg+xml"; getAsFile := None |}.

Definition bitmap : Blob := {| blob_type := "image/png"; blob_bytes := [] |}.

Definition png_file : DataTransferItem :=
  {| item_type := "image/png"; getAsFile := Some bitmap |}.

Definition gif_file : DataTransferItem :=
  {| item_type := "image/gif";
     getAsFile := Some {| blob_type := "image/gif"; blob_bytes := [] |} |}.

(** A page that was rendered and that the engine read as [recognized]. *)
Definition page_reads
  (ocr_engine : list Byte.byte -> list Pipeline.Language -> option string)
  (languages : list Pipeline.Language)
  (page : option (list Byte.byte)) (recognized : string) : Prop :=
  exists px, page = Some px /\ ocr_engine px languages = Some recognized.

(** A page that was not rendered, or that the engine failed on. *)
Definition page_fails
  (ocr_engine : list Byte.byte -> list Pipeline.Language -> option string)
  (languages : list Pipeline.Language)
  (page : option (list Byte.byte)) : Prop :=
  page = None \/
  exists px, page = Some px /\ ocr_engine px languages = None.

(** ** A sample document for the pipeline *)

(** Three pages, of which the second cannot be rendered. *)
Definition three_pages (_ : list Byte.byte) (_ : Z)
  : option (list (option (list Byte.byte))) :=
  Some [Some [Byte.x01]; None; Some [Byte.x02]].

Definition reads_hello_world (px : list Byte.byte)
  (_ : list Pipeline.Language) : option string :=
  match px with
  | [Byte.x01] => Some "Hello"
  | [Byte.x02] => Some "World"
  | _ => None
  end.

Definition report_pdf : Pipeline.UploadedDocument :=
  {| Pipeline.content := [];
     Pipeline.media_type := "application/pdf";
     Pipeline.filename := "report.pdf" |}.

(** ** The rest of the page *)

(** *** Copying the text (App.tsx, line 175)

    The result is the text handed to [navigator.clipboard.writeText],
    whose promise the handler drops. *)



(** *** What holds of the timers whenever the page has rendered *)

(** Both effects have run for the cells as they are. *)
Definition rendered (w : World) : Prop :=
  toast_changed w = false /\ settled w.

(** The toast effect: once it has run, the timer that closes the toast
    is pending, with its delay of 3000 ms, exactly when a toast is
    shown. *)
Definition toast_timed (w : World) : Prop :=
  toast_changed w = false ->
  toast_timer w = match toast (ui w) with
                  | Some _ => Some 3000
                  | None => None
                  end.

(** The progress effect: the interval is pending, with its period of
    500 ms, exactly when the effect last ran for [loading] true, and when
    it last ran for [loading] false it left the progress at 100. *)
Definition interval_tracks_loading (w : World) : Prop :=
  match rendered_loading w with
  | Some true => interval w = Some 500
  | Some false => interval w = None /\ progress (ui w) = 100
  | None => True
  end.


(** [keeps P]: a step that keeps the property [P] of worlds. *)
Definition keeps (P : World -> Prop) (w w' : World) : Prop := P w -> P w'.

(** *** Histories whose random samples are of a given kind *)

Definition fair_events (fair : Q -> Prop) (evs : list Event) : Prop :=
  Forall fair (samples evs).

Definition fair_network (fair : Q -> Prop) (net : Network) : Prop :=
  forall req,
    fair_events fair (meanwhile (net req)) /\
    forall r, settles (net req) = Normal r ->
              fair_events fair (meanwhile (json r)).

Definition fair_action (fair : Q -> Prop) (a : Action) : Prop :=
  match a with
  | Background ev => fair_events fair [ev]
  | ClickExtract net => fair_network fair net
  | ClickReset => True
  end.

(** No constraint on the samples. *)
Definition any_sample (u : Q) : Prop := True.

(** A click on one of the two buttons of the action bar. *)
Definition is_click (a : Action) : Prop :=
  match a with
  | Background _ => False
  | ClickExtract _ | ClickReset => True
  end.

(** An entry of the clipboard that [handlePaste] passes over. *)
Definition passed_over (item : DataTransferItem) : Prop :=
  indexOf (item_type item) "image" = -1 \/ getAsFile item = None.

(** A JSON value that has no [text] property, and is not [null]. *)
Definition lacks_text (data : JSON) : Prop :=
  match data with
  | JNull => False
  | JObject fields => ~ In "text" (map fst fields)
  | _ => True
  end.

(** ** Saving the text (App.tsx, line 180) *)

Module Download.

(** A JavaScript string as its UTF-16 code units, which is what
    [trim] and [substring] count in. *)
Definition jsstring : Type := list N.

(** A literal of ASCII characters. *)
Definition lit (s : string) : jsstring :=
  map N_of_ascii (list_ascii_of_string s).

(** The code units [trim] strips: WhiteSpace and LineTerminator of
    ECMAScript. *)
Definition is_blank (c : N) : bool :=
  existsb (N.eqb c)
    [9; 10; 11; 12; 13; 32; 160; 5760; 8232; 8233; 8239; 8287; 12288;
     65279]%N
  || ((8192 <=? c) && (c <=? 8202))%N.

Fixpoint trimStart (s : jsstring) : jsstring :=
  match s with
  | [] => []
  | c :: rest => if is_blank c then trimStart rest else s
  end.

Definition trimEnd (s : jsstring) : jsstring := rev (trimStart (rev s)).

Definition trim (s : jsstring) : jsstring := trimEnd (trimStart s).

(** [s.split("\n")]: the pieces between line feeds, of which there is
    always a first. *)
Fixpoint split_lines (s : jsstring) : jsstring * list jsstring :=
  match s with
  | [] => ([], [])
  | c :: rest =>
      let (piece, pieces) := split_lines rest in
      if (c =? 10)%N then ([], piece :: pieces) else (c :: piece, pieces)
  end.

(** [s.substring(from, to)] for [from <= to]. *)
Definition substring (s : jsstring) (from to : nat) : jsstring :=
  firstn (to - from) (skipn from s).

(** The name under which the text is saved (lines 181 to 183). *)
Definition fileName (extractedText : jsstring) : jsstring :=
  let lines := split_lines extractedText in
  let firstLine := substring (trim (fst lines)) 0 50 in
  match firstLine with
  | [] => lit "extracted_text.txt"
  | _ => (firstLine ++ lit ".txt")%list
  end.

(** The options handed to [showSaveFilePicker]. *)
Record SaveOptions := {
  suggestedName : jsstring;
  description : string;
  accept : list (string * list string)
}.

(** The File System Access objects: each call returns a promise. *)
Record FileSystemWritableFileStream := {
  write : jsstring -> completion unit;
  close : completion unit
}.

Record FileSystemFileHandle := {
  createWritable : completion FileSystemWritableFileStream
}.

Definition Picker : Type := SaveOptions -> completion FileSystemFileHandle.







(** A picker that works, one the user closes, one that fails. *)
Definition working : Picker :=
  fun _ =>
    Normal {| createWritable :=
                Normal {| write := fun _ => Normal tt;
                          close := Normal tt |} |}.

Definition closed_by_user : Picker :=
  fun _ =>
    Thrown {| err_name := "AbortError";
              err_message := "The user aborted a request." |}.


End Download.



(** A file is selected. *)
Definition has_file (w : World) : Prop := file (ui w) <> None.

(** Text is shown only for a selection. *)
Definition text_needs_file (w : World) : Prop :=
  file (ui w) = None -> extractedText (ui w) = Str "".

(** A computation that returns on every world: it neither throws nor
    waits. *)
Definition total (c : M unit) : Prop := forall w, fst (c w) = Normal tt.

(** * Properties *)

(** ** Computations that always return *)

Lemma bind_total {B} (c : M unit) (k : unit -> M B) w :
  total c -> bind c k w = k tt (exec c w).
Proof.
  intros Hc. unfold bind, exec. specialize (Hc w).
  destruct (c w) as [r w1]. cbn in *. now subst r.
Qed.

Lemma bind_assoc {A B C} (c : M A) (k : A -> M B) (h : B -> M C) w :
  bind (bind c k) h w = bind c (fun a => bind (k a) h) w.
Proof.
  unfold bind. destruct (c w) as [[a|e|] w1]; reflexivity.
Qed.

Lemma total_ret : total (ret tt).
Proof. now intros w. Qed.

Lemma total_bind (c : M unit) (k : unit -> M unit) :
  total c -> total (k tt) -> total (bind c k).
Proof. intros Hc Hk w. rewrite bind_total by assumption. apply Hk. Qed.

Lemma total_modify_ui f : total (modify_ui f).
Proof. now intros w. Qed.

Lemma total_emit e : total (emit e).
Proof. now intros w. Qed.

Lemma total_setToast t : total (setToast t).
Proof. now intros w. Qed.

Lemma total_set_timers i t : total (set_timers i t).
Proof. now intros w. Qed.

Lemma total_commit : total commit.
Proof. now intros w. Qed.

Lemma total_get_bind {A} (f : AppState -> A) (k : A -> M unit) :
  (forall a, total (k a)) -> total (bind (get f) k).
Proof. intros Hk w. unfold bind, get. apply Hk. Qed.

Lemma total_toastEffect : total toastEffect.
Proof.
  apply total_get_bind. intros [t|]; [|apply total_ret].
  intros w. reflexivity.
Qed.

Lemma total_progressEffect : total progressEffect.
Proof.
  apply total_get_bind. intros [|].
  - apply total_bind; [apply total_modify_ui|]. now intros w.
  - apply total_modify_ui.
Qed.

Lemma total_render : total render.
Proof.
  intros w. unfold render.
  assert (Ht : total (if toast_changed w then toastCleanup;; toastEffect
                      else ret tt)).
  { destruct (toast_changed w); [|apply total_ret].
    apply total_bind; [now intros v | apply total_toastEffect]. }
  assert (Hp : total (if loading_changed w
                      then progressCleanup;; progressEffect else ret tt)).
  { destruct (loading_changed w); [|apply total_ret].
    apply total_bind; [now intros v | apply total_progressEffect]. }
  rewrite (bind_total _ _ w Ht). rewrite bind_total by exact Hp.
  reflexivity.
Qed.

Lemma total_validateAndSetFile f : total (validateAndSetFile f).
Proof.
  unfold validateAndSetFile. destruct (includes validTypes (type f)).
  - apply total_bind; apply total_modify_ui.
  - apply total_emit.
Qed.

Lemma total_paste_loop items now : total (paste_loop items now).
Proof.
  induction items as [|item rest IH]; cbn [paste_loop].
  - apply total_ret.
  - destruct (negb _); [|exact IH].
    destruct (getAsFile item); [apply total_validateAndSetFile | exact IH].
Qed.

Lemma total_dispatch ev : total (dispatch ev).
Proof.
  destruct ev as [u| |items now| | |files|files]; cbn [dispatch].
  - intros w. now destruct (interval w).
  - intros w. now destruct (toast_timer w).
  - destruct items; [apply total_paste_loop | apply total_ret].
  - apply total_modify_ui.
  - apply total_modify_ui.
  - unfold handleDrop. apply total_bind; [apply total_modify_ui|].
    destruct files; [apply total_ret | apply total_validateAndSetFile].
  - unfold handleFileSelect. destruct files as [[|first rest]|];
      try apply total_ret. apply total_validateAndSetFile.
Qed.

Lemma total_run_events evs : total (run_events evs).
Proof.
  induction evs as [|ev rest IH]; cbn [run_events].
  - apply total_ret.
  - apply total_bind; [apply total_dispatch|].
    apply total_bind; [apply total_render | exact IH].
Qed.

(** [await] hands over the promise's outcome once the events that came
    first have been handled. *)
Lemma await_eq {A} (p : Pending A) w :
  await p w = (settles p, exec (run_events (meanwhile p)) (exec render w)).
Proof.
  unfold await. rewrite bind_total by apply total_render.
  rewrite bind_total by apply total_run_events. reflexivity.
Qed.

(** ** Relations that every step of a computation respects *)

Section Stepwise.

Variable R : World -> World -> Prop.
Hypothesis R_refl : forall w, R w w.
Hypothesis R_trans : forall a b c, R a b -> R b c -> R a c.

Lemma respects_ret {A} (a : A) : respects R (ret a).
Proof. intros w. apply R_refl. Qed.

Lemma respects_bind {A B} (c : M A) (k : A -> M B) :
  respects R c -> (forall a, respects R (k a)) -> respects R (bind c k).
Proof.
  intros Hc Hk w. unfold bind. specialize (Hc w).
  destruct (c w) as [[a|e|] w1]; cbn in *; try assumption.
  eapply R_trans; [exact Hc | apply Hk].
Qed.

Lemma respects_get {A} (f : AppState -> A) : respects R (get f).
Proof. intros w. apply R_refl. Qed.

Lemma respects_exec {A} (c : M A) w : respects R c -> R w (exec c w).
Proof. intros Hc. apply Hc. Qed.

Hypothesis R_validate : forall f, respects R (validateAndSetFile f).
Hypothesis R_dragging : forall b, respects R (setIsDragging b).
Hypothesis R_timeout : respects R (dispatch ToastTimeout).
Hypothesis R_render : respects R render.

Lemma respects_paste_loop items now : respects R (paste_loop items now).
Proof.
  induction items as [|item rest IH]; cbn [paste_loop].
  - apply respects_ret.
  - destruct (negb _); [|exact IH].
    destruct (getAsFile item); [apply R_validate | exact IH].
Qed.

(** The handlers other than the interval's. *)
Lemma respects_handlers ev :
  (forall u, ev <> Tick u) -> respects R (dispatch ev).
Proof.
  intros Hev. destruct ev as [u| |items now| | |files|files].
  - now destruct (Hev u).
  - apply R_timeout.
  - destruct items; [apply respects_paste_loop | apply respects_ret].
  - apply R_dragging.
  - apply R_dragging.
  - apply respects_bind; [apply R_dragging|]. intros _.
    destruct files; [apply respects_ret | apply R_validate].
  - destruct files as [[|first rest]|]; try apply respects_ret.
    apply R_validate.
Qed.

Hypothesis R_tick : forall u, respects R (dispatch (Tick u)).

Lemma respects_dispatch ev : respects R (dispatch ev).
Proof.
  destruct ev as [u| |items now| | |files|files];
    try (apply respects_handlers; discriminate).
  apply R_tick.
Qed.

Lemma respects_run_events evs : respects R (run_events evs).
Proof.
  induction evs as [|ev rest IH]; cbn [run_events].
  - apply respects_ret.
  - apply respects_bind; [apply respects_dispatch|]. intros _.
    apply respects_bind; [apply R_render|]. intros _. exact IH.
Qed.

(** The wait of an [await]: a render, then the events that come first. *)
Lemma respects_wait evs w :
  R w (exec (run_events evs) (exec render w)).
Proof.
  eapply R_trans; [apply R_render | apply respects_run_events].
Qed.

End Stepwise.

(** *** The outputs of the handlers that run during a wait *)

Lemma requests_app t1 t2 : requests (t1 ++ t2) = (requests t1 ++ requests t2)%list.
Proof.
  induction t1 as [|[]]; cbn; try rewrite IHt1; reflexivity.
Qed.

Lemma toasts_app t1 t2 : toasts (t1 ++ t2) = (toasts t1 ++ toasts t2)%list.
Proof.
  induction t1 as [|[]]; cbn; try rewrite IHt1; reflexivity.
Qed.

Lemma console_errors_app t1 t2 :
  console_errors (t1 ++ t2) =
  (console_errors t1 ++ console_errors t2)%list.
Proof.
  induction t1 as [|[]]; cbn; try rewrite IHt1; reflexivity.
Qed.

Lemma same_outputs_refl w : same_outputs w w.
Proof. now repeat split. Qed.

Lemma same_outputs_trans a b c :
  same_outputs a b -> same_outputs b c -> same_outputs a c.
Proof.
  intros (H1 & H2 & H3) (K1 & K2 & K3).
  repeat split; etransitivity; eassumption.
Qed.

Lemma same_outputs_alert msg w : same_outputs w (exec (emit (Alert msg)) w).
Proof.
  unfold same_outputs. cbn.
  rewrite requests_app, toasts_app, console_errors_app. cbn.
  now rewrite !app_nil_r.
Qed.

(** A step that leaves the trace alone. *)
Lemma same_outputs_silent w w' : trace w' = trace w -> same_outputs w w'.
Proof. intros H. unfold same_outputs. now rewrite H. Qed.

Lemma trace_render w : trace (exec render w) = trace w.
Proof.
  unfold render. destruct w as [s rl iv tc tt tr].
  destruct tc, s as [f x l p d [t|]], rl as [[|]|], l; reflexivity.
Qed.

Lemma same_outputs_validate f : respects same_outputs (validateAndSetFile f).
Proof.
  intros w. unfold validateAndSetFile.
  destruct (includes validTypes (type f)).
  - now apply same_outputs_silent.
  - apply same_outputs_alert.
Qed.

Lemma same_outputs_wait evs w :
  same_outputs w (exec (run_events evs) (exec render w)).
Proof.
  apply respects_wait.
  - apply same_outputs_refl.
  - apply same_outputs_trans.
  - apply same_outputs_validate.
  - intros b w0. now apply same_outputs_silent.
  - intros w0. apply same_outputs_silent. cbn.
    destruct (toast_timer w0); reflexivity.
  - intros w0. apply same_outputs_silent, trace_render.
  - intros u w0. apply same_outputs_silent. cbn. now destruct (interval w0).
Qed.

(** *** What a render changes *)

Ltac render_cases w :=
  unfold render, loading_changed;
  destruct w as [[f x l p d [t|]] [[|]|] iv [|] tt tr];
  destruct l; cbn.

Lemma render_document w : same_document w (exec render w).
Proof. render_cases w; now split. Qed.

Lemma render_loading w : loading (ui (exec render w)) = loading (ui w).
Proof. render_cases w; reflexivity. Qed.

Lemma render_toast w : toast (ui (exec render w)) = toast (ui w).
Proof. render_cases w; reflexivity. Qed.

Lemma render_settled w : settled (exec render w).
Proof. unfold settled. render_cases w; reflexivity. Qed.

(** The progress effect runs when [loading] has changed. *)
Lemma render_started w :
  loading (ui w) = true -> rendered_loading w <> Some true ->
  progress (ui (exec render w)) = 0 /\ interval (exec render w) = Some 500.
Proof. render_cases w; intros H1 H2; try discriminate; now auto. Qed.


Lemma steady_refl w : steady w w.
Proof. now split. Qed.

Lemma steady_trans a b c : steady a b -> steady b c -> steady a c.
Proof.
  unfold steady. intros [H1 H2] [K1 K2]. split; [congruence|].
  intros Ha. specialize (H2 Ha). rewrite <- H2. apply K2. congruence.
Qed.

Lemma steady_settled w w' : steady w w' -> settled w -> settled w'.
Proof. unfold steady, settled. intros [H1 H2] Hw. rewrite H2; congruence. Qed.

Lemma paused_refl w : paused w w.
Proof. split; [apply steady_refl | now split]. Qed.

Lemma paused_trans a b c : paused a b -> paused b c -> paused a c.
Proof.
  intros [H1 H2] [K1 K2]. split; [eapply steady_trans; eassumption|].
  intros Ha. destruct (H2 Ha) as [Hp Hi].
  destruct (K2 (steady_settled _ _ H1 Ha)) as [Kp Ki]. split; congruence.
Qed.

Lemma paused_render w : paused w (exec render w).
Proof.
  unfold paused, steady, settled.
  render_cases w; repeat split; intros; congruence.
Qed.

Lemma paused_validate f : respects paused (validateAndSetFile f).
Proof.
  intros w. unfold validateAndSetFile.
  destruct (includes validTypes (type f)); cbn; now repeat split.
Qed.

Lemma paused_timeout : respects paused (dispatch ToastTimeout).
Proof.
  intros w. cbn. destruct (toast_timer w); cbn; now repeat split.
Qed.

(** A handler other than the interval's leaves the progress alone. *)
Lemma paused_dispatch ev :
  (forall u, ev <> Tick u) -> respects paused (dispatch ev).
Proof.
  apply respects_handlers.
  - apply paused_refl.
  - apply paused_trans.
  - apply paused_validate.
  - intros b w. cbn. now repeat split.
  - apply paused_timeout.
Qed.

(** *** The interval's updater *)





Lemma ticks_app us vs start :
  ticks (us ++ vs) start = ticks vs (ticks us start).
Proof. apply fold_left_app. Qed.





(** *** The events of a wait, seen from the progress *)

Lemma run_events_cons ev rest w :
  exec (run_events (ev :: rest)) w =
  exec (run_events rest) (exec render (exec (dispatch ev) w)).
Proof.
  unfold exec at 1. cbn [run_events].
  rewrite bind_total by apply total_dispatch.
  rewrite bind_total by apply total_render. reflexivity.
Qed.

Lemma run_events_app evs evs' w :
  exec (run_events (evs ++ evs')) w =
  exec (run_events evs') (exec (run_events evs) w).
Proof.
  revert w. induction evs as [|ev rest IH]; intros w; [reflexivity|].
  rewrite <- app_comm_cons, !run_events_cons. apply IH.
Qed.

Lemma tick_fires u d w :
  interval w = Some d ->
  let w' := exec (dispatch (Tick u)) w in
  progress (ui w') = tick u (progress (ui w)) /\
  interval w' = Some d /\ steady w w'.
Proof.
  intros Hi w'. subst w'. unfold exec, dispatch. rewrite Hi. cbn.
  repeat split. exact Hi.
Qed.

Lemma steady_dispatch ev : respects steady (dispatch ev).
Proof.
  destruct ev as [u| | | | | |];
    try (intros w; apply paused_dispatch; discriminate).
  intros w. cbn. destruct (interval w); cbn; now split.
Qed.

Lemma dispatch_progress ev w d :
  settled w -> interval w = Some d ->
  let w' := exec (dispatch ev) w in
  progress (ui w') = ticks (samples [ev]) (progress (ui w)) /\
  interval w' = Some d /\ steady w w'.
Proof.
  intros Hs Hi w'.
  assert (Hother : (forall u, ev <> Tick u) ->
                   progress (ui w') = progress (ui w) /\
                   interval w' = Some d /\ steady w w').
  { intros Hev. destruct (paused_dispatch ev Hev w) as [Hst Hp].
    destruct (Hp Hs) as [Hp1 Hp2]. subst w'.
    split; [exact Hp1 | split; [|exact Hst]].
    unfold exec. congruence. }
  destruct ev as [u| | | | | |];
    try (apply Hother; discriminate).
  apply tick_fires, Hi.
Qed.

Lemma run_events_progress evs :
  forall w d,
    settled w -> interval w = Some d ->
    let w' := exec (run_events evs) w in
    progress (ui w') = ticks (samples evs) (progress (ui w)) /\
    interval w' = Some d /\ steady w w'.
Proof.
  induction evs as [|ev rest IH]; intros w d Hs Hi.
  - cbn. repeat split. exact Hi.
  - cbv zeta. rewrite run_events_cons.
    destruct (dispatch_progress ev w d Hs Hi) as (Hp1 & Hi1 & Hst1).
    set (w1 := exec (dispatch ev) w) in *.
    pose proof (steady_settled _ _ Hst1 Hs) as Hs1.
    destruct (paused_render w1) as [Hst2 Hp2].
    destruct (Hp2 Hs1) as [Hp3 Hi3].
    pose proof (steady_settled _ _ Hst2 Hs1) as Hs2.
    destruct (IH (exec render w1) d Hs2 ltac:(congruence)) as (Kp & Ki & Kst).
    assert (Hst : steady w (exec (run_events rest) (exec render w1))).
    { apply (steady_trans _ _ _ Hst1), (steady_trans _ _ _ Hst2), Kst. }
    split; [|split; [exact Ki | exact Hst]].
    rewrite Kp, Hp3, Hp1.
    replace (samples (ev :: rest)) with (samples [ev] ++ samples rest)%list
      by now destruct ev.
    now rewrite ticks_app.
Qed.

(** ** The extraction call, outcome by outcome *)

Section Call.

Variable api : option string.
Variable net : Network.
Variable w : World.
Variable f : File.
Hypothesis selected : file (ui w) = Some f.

Lemma performOCR_eq :
  performOCR api net w =
  match settles (net (extraction_request api f)) with
  | Suspended => (Suspended, sent api net f w)
  | Thrown e => (Normal tt, failed e (sent api net f w))
  | Normal r =>
      if ok r then
        match settles (json r) with
        | Suspended => (Suspended, received api net f w r)
        | Thrown e => (Normal tt, failed e (received api net f w r))
        | Normal data =>
            match get_text data with
            | inl text =>
                (Normal tt,
                 exec (setLoading false)
                   (exec (setExtractedText text) (received api net f w r)))
            | inr e => (Normal tt, failed e (received api net f w r))
            end
        end
      else (Normal tt, failed (Error "OCR 요청 실패") (sent api net f w))
  end.
Proof.
  unfold received, sent, extraction_request.
  unfold performOCR. unfold bind at 1, get. rewrite selected.
  rewrite bind_total by apply total_modify_ui.
  unfold try_catch_finally, fetch.
  rewrite bind_assoc, bind_total by apply total_emit.
  unfold bind at 1. rewrite await_eq.
  destruct (settles (net _)) as [r|e|]; [|reflexivity..].
  destruct (ok r) eqn:Hok; cbn [negb]; [|reflexivity].
  unfold bind at 1. rewrite await_eq.
  destruct (settles (json r)) as [data|e|]; [|reflexivity..].
  unfold bind at 1. destruct (get_text data) as [text|e]; reflexivity.
Qed.

End Call.

(** *** The world while the call waits *)

Lemma sent_outputs api net f w :
  requests (trace (sent api net f w)) =
    (requests (trace w) ++ [extraction_request api f])%list /\
  toasts (trace (sent api net f w)) = toasts (trace w) /\
  console_errors (trace (sent api net f w)) = console_errors (trace w).
Proof.
  destruct (same_outputs_wait (meanwhile (net (extraction_request api f)))
              (exec (emit (Fetch (extraction_request api f)))
                 (exec (setLoading true) w))) as (H1 & H2 & H3).
  unfold sent. rewrite H1, H2, H3. cbn [exec emit setLoading modify_ui snd trace].
  rewrite requests_app, toasts_app, console_errors_app. cbn.
  now rewrite !app_nil_r.
Qed.

Lemma received_outputs api net f w r :
  same_outputs (sent api net f w) (received api net f w r).
Proof. apply same_outputs_wait. Qed.

Lemma steady_run_events evs : respects steady (run_events evs).
Proof.
  apply respects_run_events.
  - apply steady_refl.
  - apply steady_trans.
  - intros f0 w0. apply paused_validate.
  - intros b w0. cbn. now split.
  - apply steady_dispatch.
  - intros w0. apply paused_render.
  - intros u. apply steady_dispatch.
Qed.

(** After a wait the progress effect is up to date with [loading]. *)
Lemma wait_settled evs w :
  let w' := exec (run_events evs) (exec render w) in
  settled w' /\ loading (ui w') = loading (ui w).
Proof.
  pose proof (steady_run_events evs (exec render w)) as Hst.
  split.
  - eapply steady_settled; [exact Hst | apply render_settled].
  - destruct Hst as [Hl _]. unfold exec at 1. rewrite Hl.
    apply render_loading.
Qed.

Lemma sent_loading api net f w :
  settled (sent api net f w) /\ loading (ui (sent api net f w)) = true.
Proof.
  unfold sent.
  destruct (wait_settled (meanwhile (net (extraction_request api f)))
              (exec (emit (Fetch (extraction_request api f)))
                 (exec (setLoading true) w))) as [H1 H2].
  split; [exact H1 | rewrite H2; reflexivity].
Qed.

Lemma received_loading api net f w r :
  settled (received api net f w r) /\
  loading (ui (received api net f w r)) = true.
Proof.
  unfold received.
  destruct (wait_settled (meanwhile (json r)) (sent api net f w)) as [H1 H2].
  split; [exact H1 | rewrite H2; apply sent_loading].
Qed.

(** From a page at rest the call starts the animation at 0 with a
    period of 500 ms, and only the interval moves it. *)
Lemma sent_progress api net f w :
  idle w ->
  progress (ui (sent api net f w)) =
    ticks (samples (meanwhile (net (extraction_request api f)))) 0 /\
  interval (sent api net f w) = Some 500.
Proof.
  intros [Hl Hr]. unfold sent.
  set (w0 := exec (emit _) _).
  destruct (render_started w0) as [Hp Hi].
  { reflexivity. }
  { subst w0. cbn. rewrite Hr. discriminate. }
  destruct (run_events_progress
              (meanwhile (net (extraction_request api f)))
              (exec render w0) 500 (render_settled w0) Hi) as (Kp & Ki & _).
  rewrite Kp, Hp. split; [reflexivity | exact Ki].
Qed.

Lemma received_progress api net f w r :
  idle w ->
  progress (ui (received api net f w r)) =
    ticks (samples (meanwhile (json r))) (progress (ui (sent api net f w))) /\
  interval (received api net f w r) = Some 500.
Proof.
  intros Hw. unfold received.
  destruct (sent_progress api net f w Hw) as [_ Hi].
  destruct (sent_loading api net f w) as [Hs _].
  destruct (paused_render (sent api net f w)) as [Hst Hp].
  destruct (Hp Hs) as [Hp1 Hp2].
  destruct (run_events_progress (meanwhile (json r))
              (exec render (sent api net f w)) 500
              (render_settled _) ltac:(congruence)) as (Kp & Ki & _).
  rewrite Kp, Hp1. split; [reflexivity | exact Ki].
Qed.


Lemma waiting_facts api net f w X :
  waiting api net f w X ->
  requests (trace X) = (requests (trace w) ++ [extraction_request api f])%list /\
  toasts (trace X) = toasts (trace w) /\
  console_errors (trace X) = console_errors (trace w) /\
  settled X /\ loading (ui X) = true.
Proof.
  destruct (sent_outputs api net f w) as (H1 & H2 & H3).
  intros [->|[r ->]].
  - destruct (sent_loading api net f w). now repeat split.
  - destruct (received_outputs api net f w r) as (K1 & K2 & K3).
    destruct (received_loading api net f w r).
    repeat split; try assumption; congruence.
Qed.

Lemma failed_outputs e X :
  requests (trace (failed e X)) = requests (trace X) /\
  toasts (trace (failed e X)) = (toasts (trace X) ++ [failure_toast])%list /\
  console_errors (trace (failed e X)) = (console_errors (trace X) ++ [e])%list.
Proof.
  unfold failed. cbn.
  rewrite !requests_app, !toasts_app, !console_errors_app. cbn.
  now rewrite !app_nil_r.
Qed.

(** Every run of the call ends in one of three ways: still waiting,
    through the [catch] block, or with a text. *)
Lemma performOCR_ends api net w f :
  file (ui w) = Some f ->
  exists X, waiting api net f w X /\
    (performOCR api net w = (Suspended, X) \/
     (exists e, performOCR api net w = (Normal tt, failed e X)) \/
     (exists text, performOCR api net w =
        (Normal tt, exec (setLoading false) (exec (setExtractedText text) X)))).
Proof.
  intros Hf. rewrite (performOCR_eq api net w f Hf).
  assert (Hs : waiting api net f w (sent api net f w)) by now left.
  assert (Hr : forall r, waiting api net f w (received api net f w r))
    by (intros r; right; now exists r).
  destruct (settles (net _)) as [r|e|].
  - destruct (ok r).
    + exists (received api net f w r). split; [apply Hr|].
      destruct (settles (json r)) as [data|e|].
      * destruct (get_text data) as [text|e].
        -- right. right. now exists text.
        -- right. left. now exists e.
      * right. left. now exists e.
      * now left.
    + exists (sent api net f w). split; [exact Hs|].
      right. left. now eexists.
  - exists (sent api net f w). split; [exact Hs|]. right. left. now exists e.
  - exists (sent api net f w). split; [exact Hs|]. now left.
Qed.

(** ** A click on the extraction button *)

Lemma run_click api net w f :
  file (ui w) = Some f -> loading (ui w) = false ->
  exec (run api [ClickExtract net]) w =
  exec render (exec (performOCR api net) w).
Proof.
  intros Hf Hl. unfold exec at 1. cbn [run act].
  rewrite bind_assoc. unfold bind at 1, get, buttons_disabled.
  rewrite Hf, Hl. unfold bind at 1, detach.
  rewrite bind_total by apply total_render. reflexivity.
Qed.


(** While the request is pending the page shows the animation. *)
Lemma click_pending api net w f :
  file (ui w) = Some f -> idle w ->
  settles (net (extraction_request api f)) = Suspended ->
  let w' := exec (run api [ClickExtract net]) w in
  loading (ui w') = true /\ interval w' = Some 500 /\
  progress (ui w') =
    ticks (samples (meanwhile (net (extraction_request api f)))) 0.
Proof.
  intros Hf Hw Hp. cbv zeta.
  rewrite (run_click api net w f Hf (proj1 Hw)).
  replace (exec (performOCR api net) w) with (sent api net f w)
    by (unfold exec; now rewrite (performOCR_eq api net w f Hf), Hp).
  destruct (sent_loading api net f w) as [Hs Hl].
  destruct (sent_progress api net f w Hw) as [Kp Ki].
  destruct (paused_render (sent api net f w)) as [_ Hr].
  destruct (Hr Hs) as [Hr1 Hr2].
  rewrite render_loading. repeat split; congruence.
Qed.


(** ** The claims about the client *)

(** C5. Each extraction crosses a single HTTP boundary: with a file
    selected, [performOCR] issues exactly one request, a POST to the
    [/extract-text] endpoint whose form data carries that file under the
    name [file]; with no file selected it issues no request and changes
    nothing at all. *)
Theorem performOCR_sends_one_request (api : option string) (net : Network)
  (w : World) :
  (forall f,
      file (ui w) = Some f ->
      requests (trace (exec (performOCR api net) w)) =
      (requests (trace w) ++
       [{| url := or_else api "http://localhost:8000" ++ "/extract-text";
           method := "POST";
           body := [("file", f)] |}])%list) /\
  (file (ui w) = None -> performOCR api net w = (Normal tt, w)).
Proof.
  split.
  - intros f Hf.
    destruct (performOCR_ends api net w f Hf) as (X & HX & Hcases).
    destruct (waiting_facts api net f w X HX) as (Hreq & _).
    unfold exec.
    destruct Hcases as [H|[[e H]|[text H]]]; rewrite H; cbn [snd].
    + exact Hreq.
    + destruct (failed_outputs e X) as [-> _]. exact Hreq.
    + exact Hreq.
  - intros Hf. unfold performOCR, bind, get. now rewrite Hf.
Qed.

Lemma performOCR_sends_one_request_witness :
  requests (trace (exec (performOCR None offline) (dropped scan_png))) =
  [{| url := "http://localhost:8000/extract-text";
      method := "POST";
      body := [("file", scan_png)] |}] /\
  performOCR None offline mounted = (Normal tt, mounted).
Proof.
  split.
  - apply (proj1 (performOCR_sends_one_request None offline
                    (dropped scan_png)) scan_png).
    reflexivity.
  - apply (proj2 (performOCR_sends_one_request None offline mounted)).
    reflexivity.
Defined.

(** *** The extracted text across the handlers of a wait *)

















(** ** Choosing a file *)

Lemma includes_In xs x : includes xs x = true <-> In x xs.
Proof.
  induction xs as [|y ys IH]; cbn.
  - split; [discriminate | contradiction].
  - destruct (String.eqb_spec y x) as [->|Hne].
    + split; auto.
    + rewrite IH. split; [auto | intros [H|H]; [contradiction | exact H]].
Qed.

Lemma validTypes_supported f :
  includes validTypes (type f) = true <-> supported f.
Proof.
  rewrite includes_In. unfold supported, validTypes. cbn. tauto.
Qed.

Lemma validTypes_unsupported f :
  includes validTypes (type f) = false <-> ~ supported f.
Proof.
  rewrite <- validTypes_supported.
  destruct (includes validTypes (type f)); split; congruence.
Qed.

Lemma keeps_supported_refl w : keeps_supported w w.
Proof. now intros H. Qed.

Lemma keeps_supported_trans a b c :
  keeps_supported a b -> keeps_supported b c -> keeps_supported a c.
Proof. unfold keeps_supported. auto. Qed.

(** A step that neither selects a file nor sends a request. *)
Lemma keeps_supported_frame w w' :
  file (ui w') = file (ui w) ->
  requests (trace w') = requests (trace w) ->
  keeps_supported w w'.
Proof.
  intros Hf Hr [H1 H2]. split.
  - intros f. rewrite Hf. apply H1.
  - intros req part f. rewrite Hr. apply H2.
Qed.

Lemma keeps_supported_validate f :
  respects keeps_supported (validateAndSetFile f).
Proof.
  intros w. unfold validateAndSetFile.
  destruct (includes validTypes (type f)) eqn:Hv.
  - intros [H1 H2]. split; [|exact H2].
    cbn. intros f0 [= <-]. now apply validTypes_supported.
  - apply keeps_supported_frame; [reflexivity|].
    apply (same_outputs_alert unsupported_message w).
Qed.

Lemma keeps_supported_dragging b : respects keeps_supported (setIsDragging b).
Proof. intros w. now apply keeps_supported_frame. Qed.

Lemma keeps_supported_timeout : respects keeps_supported (dispatch ToastTimeout).
Proof.
  intros w. cbn. destruct (toast_timer w); now apply keeps_supported_frame.
Qed.

Lemma keeps_supported_tick u : respects keeps_supported (dispatch (Tick u)).
Proof.
  intros w. cbn. destruct (interval w); now apply keeps_supported_frame.
Qed.

Lemma keeps_supported_render : respects keeps_supported render.
Proof.
  intros w. apply keeps_supported_frame.
  - apply render_document.
  - exact (f_equal requests (trace_render w)).
Qed.

Lemma keeps_supported_dispatch ev : respects keeps_supported (dispatch ev).
Proof.
  apply respects_dispatch.
  - apply keeps_supported_refl.
  - apply keeps_supported_trans.
  - apply keeps_supported_validate.
  - apply keeps_supported_dragging.
  - apply keeps_supported_timeout.
  - apply keeps_supported_tick.
Qed.

Lemma keeps_supported_run_events evs :
  respects keeps_supported (run_events evs).
Proof.
  apply respects_run_events.
  - apply keeps_supported_refl.
  - apply keeps_supported_trans.
  - apply keeps_supported_validate.
  - apply keeps_supported_dragging.
  - apply keeps_supported_timeout.
  - apply keeps_supported_render.
  - apply keeps_supported_tick.
Qed.

Lemma keeps_supported_wait evs w :
  keeps_supported w (exec (run_events evs) (exec render w)).
Proof.
  eapply keeps_supported_trans;
    [apply keeps_supported_render | apply keeps_supported_run_events].
Qed.

Lemma only_supported_waiting api net f w X :
  file (ui w) = Some f -> only_supported w ->
  waiting api net f w X -> only_supported X.
Proof.
  intros Hf Hw HX.
  assert (Hsent : only_supported (sent api net f w)).
  { unfold sent. apply keeps_supported_wait.
    destruct Hw as [H1 H2]. split; [exact H1|].
    intros req part f0. cbn. rewrite requests_app. cbn.
    rewrite in_app_iff. intros [Hin|[<-|[]]]; [now apply H2|].
    cbn. intros [[= _ <-]|[]]. now apply H1. }
  destruct HX as [->|[r ->]]; [exact Hsent|].
  unfold received. now apply keeps_supported_wait.
Qed.

Lemma keeps_supported_performOCR api net :
  respects keeps_supported (performOCR api net).
Proof.
  intros w Hw. destruct (file (ui w)) as [f|] eqn:Hf.
  - destruct (performOCR_ends api net w f Hf) as (X & HX & Hcases).
    pose proof (only_supported_waiting api net f w X Hf Hw HX) as HXs.
    destruct Hcases as [H|[[e H]|[text H]]]; rewrite H; cbn [snd].
    + exact HXs.
    + revert HXs. apply keeps_supported_frame; [reflexivity|].
      apply failed_outputs.
    + revert HXs. now apply keeps_supported_frame.
  - unfold performOCR, bind, get. now rewrite Hf.
Qed.

Lemma keeps_supported_act api a : respects keeps_supported (act api a).
Proof.
  destruct a as [ev|net|]; cbn [act].
  - apply keeps_supported_dispatch.
  - intros w. unfold bind, get. destruct (buttons_disabled (ui w)).
    + apply keeps_supported_refl.
    + apply keeps_supported_performOCR.
  - intros w. unfold bind, get. destruct (buttons_disabled (ui w)).
    + apply keeps_supported_refl.
    + cbn. intros [_ H2]. split; [discriminate | exact H2].
Qed.

Lemma keeps_supported_run api actions :
  respects keeps_supported (run api actions).
Proof.
  induction actions as [|a rest IH]; cbn [run].
  - apply respects_ret, keeps_supported_refl.
  - apply respects_bind; try apply keeps_supported_trans.
    + apply keeps_supported_act.
    + intros _. apply respects_bind; try apply keeps_supported_trans.
      * apply keeps_supported_render.
      * intros _. exact IH.
Qed.

(** C2. A file whose declared media type is [image/png], [image/jpeg],
    [image/bmp], [image/tiff] or [application/pdf] becomes the selected
    file; a file of any other type is refused with the alert about
    unsupported formats and leaves the state as it was; and whatever is
    done on the page, no file of another type is ever part of a
    request. *)
Theorem only_supported_files_are_taken :
  (forall f w,
      supported f ->
      file (ui (exec (validateAndSetFile f) w)) = Some f) /\
  (forall f w,
      ~ supported f ->
      ui (exec (validateAndSetFile f) w) = ui w /\
      trace (exec (validateAndSetFile f) w) =
        (trace w ++ [Alert unsupported_message])%list) /\
  (forall api actions req part f,
      In (Fetch req) (trace (exec (run api actions) mounted)) ->
      In (part, f) (body req) ->
      supported f).
Proof.
  split; [|split].
  - intros f w Hf. apply validTypes_supported in Hf.
    unfold validateAndSetFile. now rewrite Hf.
  - intros f w Hf. apply validTypes_unsupported in Hf.
    unfold validateAndSetFile. rewrite Hf. now split.
  - intros api actions req part f Hin.
    assert (Hm : only_supported mounted).
    { split; [discriminate | intros ? ? ? []]. }
    destruct (keeps_supported_run api actions mounted Hm) as [_ H].
    apply (H req part f).
    clear -Hin. induction (trace _) as [|e t IH]; [contradiction|].
    destruct Hin as [->|Hin]; [now left|].
    destruct e; cbn; auto.
Qed.

Lemma only_supported_files_are_taken_witness :
  file (ui (exec (validateAndSetFile scan_png) mounted)) = Some scan_png /\
  (ui (exec (validateAndSetFile setup_exe) mounted) = ui mounted /\
   trace (exec (validateAndSetFile setup_exe) mounted) =
     [Alert unsupported_message]) /\
  supported scan_png.
Proof.
  destruct only_supported_files_are_taken as (H1 & H2 & H3).
  split; [|split].
  - apply H1. unfold supported. cbn. auto.
  - apply H2. unfold supported. cbn.
    intros [H|[H|[H|[H|[H|[]]]]]]; discriminate H.
  - apply (H3 None [Background (Drop [setup_exe]);
                    Background (Drop [scan_png]);
                    ClickExtract offline]
               (extraction_request None scan_png) "file" scan_png).
    + vm_compute. auto.
    + left. reflexivity.
Defined.

(** C9. When [validateAndSetFile] accepts a file it selects it and
    resets the extracted text to the empty string, and touches nothing
    else; when it refuses a file it changes neither the selected file
    nor the extracted text nor any other cell: it only raises the
    alert. *)
Theorem validateAndSetFile_resets_the_text (f : File) (w : World) :
  let w' := exec (validateAndSetFile f) w in
  (includes validTypes (type f) = true ->
   file (ui w') = Some f /\
   extractedText (ui w') = Str "" /\
   loading (ui w') = loading (ui w) /\
   progress (ui w') = progress (ui w) /\
   isDragging (ui w') = isDragging (ui w) /\
   toast (ui w') = toast (ui w) /\
   trace w' = trace w) /\
  (includes validTypes (type f) = false ->
   ui w' = ui w /\
   trace w' = (trace w ++ [Alert unsupported_message])%list).
Proof.
  cbv zeta. unfold validateAndSetFile.
  destruct (includes validTypes (type f)); split;
    intros H; try discriminate H; now repeat split.
Qed.

Lemma validateAndSetFile_resets_the_text_witness :
  let shown := exec (setExtractedText (Str "old text")) (dropped scan_png) in
  (file (ui (exec (validateAndSetFile scan_png) shown)) = Some scan_png /\
   extractedText (ui (exec (validateAndSetFile scan_png) shown)) = Str "") /\
  (file (ui (exec (validateAndSetFile setup_exe) shown)) = Some scan_png /\
   extractedText (ui (exec (validateAndSetFile setup_exe) shown)) =
     Str "old text").
Proof.
  intros shown.
  destruct (validateAndSetFile_resets_the_text scan_png shown) as [H1 _].
  destruct (validateAndSetFile_resets_the_text setup_exe shown) as [_ H2].
  destruct (H1 eq_refl) as (K1 & K2 & _).
  destruct (H2 eq_refl) as (K3 & _).
  split; [now split|]. now rewrite K3.
Defined.

(** ** Pasting *)

(** C10 as worded: refuted.  The first entry whose type contains
    [image] is a drawing pasted as text, which has no file; the handler
    goes on and takes the bitmap that follows it. *)
Lemma paste_goes_past_an_image_item_without_file :
  ~ paste_uses_first_image_item.
Proof.
  intros H.
  specialize (H [svg_text; png_file] 1730000000000 mounted svg_text eq_refl).
  apply (f_equal (fun w => file (ui w))) in H.
  vm_compute in H. discriminate H.
Qed.

Lemma paste_loop_skips before :
  forall rest now,
    Forall (fun item => image_typed item = false \/ getAsFile item = None)
      before ->
    paste_loop (before ++ rest) now = paste_loop rest now.
Proof.
  induction before as [|item before IH]; intros rest now Hb; [reflexivity|].
  inversion Hb as [|? ? Hitem Hrest]; subst.
  rewrite <- app_comm_cons. cbn [paste_loop]. fold (image_typed item).
  destruct Hitem as [-> | Hnone].
  - now apply IH.
  - rewrite Hnone. destruct (image_typed item); now apply IH.
Qed.

(** C10, amended.  The paste handler uses the first entry whose type
    contains [image] and which yields a file, and ignores every entry
    after it: the blob becomes a file named
    [pasted_image_<timestamp>.png] with the blob's own media type, so
    that this type alone, not the name, decides whether the file is
    accepted. *)
Theorem handlePaste_takes_first_image_file
  (before after : list DataTransferItem) (item : DataTransferItem)
  (blob : Blob) (now : Z) (w : World) :
  Forall (fun skipped =>
            indexOf (item_type skipped) "image" = -1 \/
            getAsFile skipped = None) before ->
  indexOf (item_type item) "image" <> -1 ->
  getAsFile item = Some blob ->
  let file_made :=
    {| name := "pasted_image_" ++ number_to_string now ++ ".png";
       type := blob_type blob;
       bytes := blob_bytes blob |} in
  let items := (before ++ item :: after)%list in
  let w' := exec (handlePaste (Some items) now) w in
  handlePaste (Some items) now w = validateAndSetFile file_made w /\
  (includes validTypes (blob_type blob) = true ->
   file (ui w') = Some file_made /\ extractedText (ui w') = Str "") /\
  (includes validTypes (blob_type blob) = false ->
   ui w' = ui w /\
   trace w' = (trace w ++ [Alert unsupported_message])%list).
Proof.
  intros Hbefore Himage Hblob file_made items w'.
  assert (Heq : handlePaste (Some items) now w =
                validateAndSetFile file_made w).
  { subst items. cbn [handlePaste]. rewrite paste_loop_skips.
    - cbn [paste_loop]. rewrite Hblob.
      destruct (Z.eqb_spec (indexOf (item_type item) "image") (-1))
        as [Heq|_]; [contradiction | reflexivity].
    - eapply Forall_impl; [|exact Hbefore].
      intros skipped [H|H]; [left | now right].
      unfold image_typed. now rewrite H. }
  split; [exact Heq|].
  subst w'. unfold exec. rewrite Heq. unfold validateAndSetFile.
  change (type file_made) with (blob_type blob).
  destruct (includes validTypes (blob_type blob)); split;
    intros H; try discriminate H; now split.
Qed.

Lemma handlePaste_takes_first_image_file_witness :
  let w' := exec (handlePaste (Some [svg_text; png_file; gif_file])
                    1730000000000) mounted in
  file (ui w') =
    Some {| name := "pasted_image_1730000000000.png";
            type := "image/png";
            bytes := [] |} /\
  extractedText (ui w') = Str "".
Proof.
  destruct (handlePaste_takes_first_image_file [svg_text] [gif_file]
              png_file bitmap 1730000000000 mounted) as (_ & H & _).
  - constructor; [right; reflexivity | constructor].
  - vm_compute. discriminate.
  - reflexivity.
  - exact (H eq_refl).
Defined.

(** ** The backend image *)


(** ** The pipeline *)

Module PipelineFacts.
Import Pipeline.

Section Pages.

Variable render_pdf :
  list Byte.byte -> Z -> option (list (option (list Byte.byte))).
Variable ocr_engine : list Byte.byte -> list Language -> option string.
Variable dpi : Z.
Variable languages : list Language.

Lemma number_pages_length i rendered :
  length (number_pages i rendered) = length rendered.
Proof.
  revert i. induction rendered as [|page rest IH]; intros i; cbn;
    [reflexivity | now rewrite IH].
Qed.

Lemma number_pages_app i rendered rendered' :
  number_pages i (rendered ++ rendered') =
  (number_pages i rendered ++
   number_pages (i + length rendered) rendered')%list.
Proof.
  revert i. induction rendered as [|page rest IH]; intros i; cbn.
  - now rewrite Nat.add_0_r.
  - now rewrite IH, Nat.add_succ_r.
Qed.

Lemma page_indices i rendered :
  map page_index
    (map (process_page ocr_engine languages) (number_pages i rendered)) =
  seq i (length rendered).
Proof.
  revert i. induction rendered as [|page rest IH]; intros i; cbn;
    [reflexivity|]. rewrite IH. f_equal.
  unfold process_page, recognize. cbn.
  destruct page as [px|]; [|reflexivity].
  cbn. now destruct (ocr_engine px languages).
Qed.

Lemma pages_read i rendered recognized :
  Forall2 (page_reads ocr_engine languages) rendered recognized ->
  map text
    (map (process_page ocr_engine languages) (number_pages i rendered)) =
  recognized.
Proof.
  intros H. revert i.
  induction H as [|page t rest ts (px & -> & Hpx) _ IH]; intros i; cbn;
    [reflexivity|].
  rewrite IH. unfold process_page, recognize. cbn. now rewrite Hpx.
Qed.

Lemma failed_page_is_empty i page :
  page_fails ocr_engine languages page ->
  exists kind,
    process_page ocr_engine languages
      (i, match page with
          | Some px => Some {| pixels := px; index := i |}
          | None => None
          end) =
    {| page_index := i; text := ""; failure := Some kind |}.
Proof.
  intros [->|(px & -> & Hpx)].
  - now exists RasterizationFailed.
  - exists OcrEngineFailure. unfold process_page, recognize. cbn.
    now rewrite Hpx.
Qed.

End Pages.

(** C1. In an N-page PDF in which page k is not rendered or not read
    and every other page is read, the extraction does not abort: it
    returns the N page results in index order, with page k marked failed
    and empty, and the aggregated text is the texts of the other pages
    in page order with an empty segment for page k, one newline between
    two pages.  In particular two pages read as Hello and World give
    Hello, a newline, World. *)
Theorem extraction_survives_a_failed_page :
  (forall render_pdf ocr_engine dpi languages doc
          before failed after texts_before texts_after,
      classify (media_type doc) = PdfDocument ->
      render_pdf (content doc) dpi = Some (before ++ failed :: after)%list ->
      Forall2 (page_reads ocr_engine languages) before texts_before ->
      page_fails ocr_engine languages failed ->
      Forall2 (page_reads ocr_engine languages) after texts_after ->
      exists result kind,
        extract render_pdf ocr_engine dpi languages doc = inr result /\
        final_text result =
          String.concat newline (texts_before ++ "" :: texts_after) /\
        map page_index (pages result) =
          seq 0 (length (before ++ failed :: after)) /\
        nth_error (pages result) (length before) =
          Some {| page_index := length before; text := "";
                  failure := Some kind |}) /\
  (forall render_pdf ocr_engine dpi languages doc first second,
      classify (media_type doc) = PdfDocument ->
      render_pdf (content doc) dpi = Some [Some first; Some second] ->
      ocr_engine first languages = Some "Hello" ->
      ocr_engine second languages = Some "World" ->
      exists result,
        extract render_pdf ocr_engine dpi languages doc = inr result /\
        final_text result = "Hello" ++ newline ++ "World").
Proof.
  split.
  - intros render_pdf ocr_engine dpi languages doc
      before failed after texts_before texts_after
      Hpdf Hrender Hbefore Hfailed Hafter.
    destruct (failed_page_is_empty ocr_engine languages
                (0 + length before) failed Hfailed) as [kind Hkind].
    eexists. exists kind. unfold extract, rasterize.
    rewrite Hpdf, Hrender. split; [reflexivity|].
    cbn [pages final_text]. unfold aggregate.
    rewrite number_pages_app. cbn [number_pages].
    rewrite !map_app. cbn [map]. rewrite Hkind. cbn [text].
    split; [|split].
    + rewrite (pages_read ocr_engine languages 0 before texts_before Hbefore).
      now rewrite (pages_read ocr_engine languages _ after texts_after Hafter).
    + change (map page_index (map (process_page ocr_engine languages)
                (number_pages 0 before) ++
              {| page_index := 0 + length before; text := "";
                 failure := Some kind |} ::
              map (process_page ocr_engine languages)
                (number_pages (S (0 + length before)) after))) with
        (map page_index (map (process_page ocr_engine languages)
                (number_pages 0 before)) ++
         (0 + length before)%nat ::
         map page_index (map (process_page ocr_engine languages)
                (number_pages (S (0 + length before)) after)))%list.
      rewrite !page_indices, length_app. cbn [length].
      rewrite seq_app. reflexivity.
    + rewrite nth_error_app2; rewrite length_map, number_pages_length;
        [|apply Nat.le_refl].
      now rewrite Nat.sub_diag.
  - intros render_pdf ocr_engine dpi languages doc first second
      Hpdf Hrender Hfirst Hsecond.
    eexists. unfold extract, rasterize. rewrite Hpdf, Hrender.
    split; [reflexivity|].
    cbn. unfold process_page, recognize. cbn.
    now rewrite Hfirst, Hsecond.
Qed.

Lemma extraction_survives_a_failed_page_witness :
  exists result,
    extract three_pages reads_hello_world 300 default_languages report_pdf =
      inr result /\
    final_text result = "Hello" ++ newline ++ newline ++ "World" /\
    map page_index (pages result) = [0; 1; 2]%nat.
Proof.
  destruct (proj1 extraction_survives_a_failed_page
              three_pages reads_hello_world 300 default_languages report_pdf
              [Some [Byte.x01]] None [Some [Byte.x02]] ["Hello"] ["World"])
    as (result & kind & H1 & H2 & H3 & _).
  - reflexivity.
  - reflexivity.
  - constructor; [|constructor]. now exists [Byte.x01].
  - now left.
  - constructor; [|constructor]. now exists [Byte.x02].
  - exists result. repeat split; assumption.
Defined.

End PipelineFacts.

(** * The page as a whole *)

(** ** Relations that every step of a history respects *)

Lemma total_act api a : total (act api a).
Proof.
  destruct a as [ev|net|]; cbn [act].
  - apply total_dispatch.
  - apply total_get_bind. intros [|]; [apply total_ret | now intros w].
  - apply total_get_bind. intros [|]; [apply total_ret|].
    unfold reset. apply total_bind; apply total_modify_ui.
Qed.

Lemma run_cons api a rest w :
  exec (run api (a :: rest)) w =
  exec (run api rest) (exec render (exec (act api a) w)).
Proof.
  unfold exec at 1. cbn [run].
  rewrite bind_total by apply total_act.
  rewrite bind_total by apply total_render. reflexivity.
Qed.

Lemma run_app api actions actions' w :
  exec (run api (actions ++ actions')) w =
  exec (run api actions') (exec (run api actions) w).
Proof.
  revert w. induction actions as [|a rest IH]; intros w; [reflexivity|].
  rewrite <- app_comm_cons, !run_cons. apply IH.
Qed.

Lemma any_sample_events evs : fair_events any_sample evs.
Proof. apply Forall_forall. now intros u _. Qed.

Lemma any_sample_network net : fair_network any_sample net.
Proof.
  intros req. split; [|intros r _]; apply any_sample_events.
Qed.

Lemma any_sample_actions actions : Forall (fair_action any_sample) actions.
Proof.
  apply Forall_forall. intros [ev|net|] _; cbn.
  - apply any_sample_events.
  - apply any_sample_network.
  - exact I.
Qed.

Section Page.

Variable R : World -> World -> Prop.
Hypothesis R_refl : forall w, R w w.
Hypothesis R_trans : forall a b c, R a b -> R b c -> R a c.

Variable fair : Q -> Prop.

Hypothesis R_validate : forall f, respects R (validateAndSetFile f).
Hypothesis R_dragging : forall b, respects R (setIsDragging b).
Hypothesis R_timeout : respects R (dispatch ToastTimeout).
Hypothesis R_render : respects R render.
Hypothesis R_tick : forall u, fair u -> respects R (dispatch (Tick u)).

Lemma page_dispatch ev : fair_events fair [ev] -> respects R (dispatch ev).
Proof.
  intros Hev. destruct ev as [u| | | | | |];
    try (apply respects_handlers; solve [assumption | discriminate]).
  apply R_tick. now inversion Hev.
Qed.

Lemma fair_events_cons ev rest :
  fair_events fair (ev :: rest) ->
  fair_events fair [ev] /\ fair_events fair rest.
Proof.
  unfold fair_events. destruct ev; cbn; try (split; [constructor|assumption]).
  intros H. inversion H; subst. split; [now repeat constructor | assumption].
Qed.

Lemma page_run_events evs :
  fair_events fair evs -> respects R (run_events evs).
Proof.
  induction evs as [|ev rest IH]; intros Hevs; cbn [run_events].
  - now apply respects_ret.
  - apply fair_events_cons in Hevs. destruct Hevs as [Hev Hrest].
    apply respects_bind; try assumption; [now apply page_dispatch|].
    intros _. apply respects_bind; try assumption. intros _. now apply IH.
Qed.

Lemma page_wait evs w :
  fair_events fair evs -> R w (exec (run_events evs) (exec render w)).
Proof.
  intros Hevs. eapply R_trans; [apply R_render | now apply page_run_events].
Qed.

Hypothesis R_loading : forall b, respects R (setLoading b).
Hypothesis R_emit : forall e, respects R (emit e).
Hypothesis R_text : forall text, respects R (setExtractedText text).
Hypothesis R_toast : forall t, respects R (setToast (Some t)).
Hypothesis R_deselect : respects R (setFile None).

Lemma page_sent api net f w : fair_network fair net -> R w (sent api net f w).
Proof.
  intros Hnet. unfold sent.
  eapply R_trans; [apply (R_loading true)|].
  eapply R_trans; [apply (R_emit (Fetch (extraction_request api f)))|].
  apply page_wait, Hnet.
Qed.

Lemma page_received api net f w r :
  fair_network fair net ->
  settles (net (extraction_request api f)) = Normal r ->
  R (sent api net f w) (received api net f w r).
Proof.
  intros Hnet Hr. unfold received. apply page_wait.
  now apply (Hnet (extraction_request api f)).
Qed.

Lemma page_failed e X : R X (failed e X).
Proof.
  unfold failed.
  eapply R_trans; [apply (R_emit (ConsoleError e))|].
  eapply R_trans; [apply (R_toast failure_toast)|].
  apply (R_loading false).
Qed.

Lemma page_performOCR api net :
  fair_network fair net -> respects R (performOCR api net).
Proof.
  intros Hnet w. destruct (file (ui w)) as [f|] eqn:Hf.
  - rewrite (performOCR_eq api net w f Hf).
    pose proof (page_sent api net f w Hnet) as Hsent.
    destruct (settles (net (extraction_request api f))) as [r|e|] eqn:Hr;
      cbn [snd].
    + pose proof (page_received api net f w r Hnet Hr) as Hrec.
      assert (Hw : R w (received api net f w r))
        by (eapply R_trans; eassumption).
      destruct (ok r); cbn [snd].
      * destruct (settles (json r)) as [data|e|]; cbn [snd].
        -- destruct (get_text data) as [text|e]; cbn [snd].
           ++ eapply R_trans; [exact Hw|].
              eapply R_trans; [apply (R_text text) | apply (R_loading false)].
           ++ eapply R_trans; [exact Hw | apply page_failed].
        -- eapply R_trans; [exact Hw | apply page_failed].
        -- exact Hw.
      * eapply R_trans; [exact Hsent | apply page_failed].
    + eapply R_trans; [exact Hsent | apply page_failed].
    + exact Hsent.
  - unfold performOCR, bind, get. rewrite Hf. apply R_refl.
Qed.

Lemma page_act api a : fair_action fair a -> respects R (act api a).
Proof.
  destruct a as [ev|net|]; cbn [act fair_action]; intros Ha.
  - now apply page_dispatch.
  - intros w. unfold bind, get. destruct (buttons_disabled (ui w)).
    + apply R_refl.
    + exact (page_performOCR api net Ha w).
  - intros w. unfold bind, get. destruct (buttons_disabled (ui w)).
    + apply R_refl.
    + change (snd (reset w)) with
        (exec (setExtractedText (Str "")) (exec (setFile None) w)).
      eapply R_trans; [apply R_deselect | apply (R_text (Str ""))].
Qed.

Lemma page_run api actions :
  Forall (fair_action fair) actions -> respects R (run api actions).
Proof.
  induction 1 as [|a rest Ha _ IH]; intros w.
  - apply R_refl.
  - change (snd (run api (a :: rest) w)) with (exec (run api (a :: rest)) w).
    rewrite run_cons.
    eapply R_trans; [exact (page_act api a Ha w)|].
    eapply R_trans; [exact (R_render _) | apply IH].
Qed.

End Page.

Lemma keeps_refl P w : keeps P w w.
Proof. now intros H. Qed.

Lemma keeps_trans P a b c : keeps P a b -> keeps P b c -> keeps P a c.
Proof. unfold keeps. auto. Qed.

Lemma render_rendered w : rendered (exec render w).
Proof.
  split; [|apply render_settled]. render_cases w; reflexivity.
Qed.

Lemma run_rendered api actions w :
  rendered w -> rendered (exec (run api actions) w).
Proof.
  revert w. induction actions as [|a rest IH]; intros w Hw; [exact Hw|].
  rewrite run_cons. apply IH, render_rendered.
Qed.

Lemma mounted_rendered : rendered mounted.
Proof. apply render_rendered. Qed.

(** ** The toast and its timer *)

Lemma toast_timed_timeout : respects (keeps toast_timed) (dispatch ToastTimeout).
Proof.
  intros [[f x l p d [t|]] rl iv [|] [tt|] tr] H; cbn in *; intros Hc;
    try discriminate Hc; try reflexivity.
  now specialize (H eq_refl).
Qed.

Lemma toast_timed_render : respects (keeps toast_timed) render.
Proof.
  intros w. unfold keeps, toast_timed.
  render_cases w; intros H _; try reflexivity; now apply H.
Qed.

Lemma toast_timed_run api actions :
  respects (keeps toast_timed) (run api actions).
Proof.
  apply (page_run (keeps toast_timed) (keeps_refl _) (keeps_trans _)
           any_sample).
  - intros f w H. unfold validateAndSetFile.
    destruct (includes validTypes (type f)); exact H.
  - intros b w H. exact H.
  - apply toast_timed_timeout.
  - apply toast_timed_render.
  - intros u _ w H. cbn. destruct (interval w); exact H.
  - intros b w H. exact H.
  - intros e w H. exact H.
  - intros text w H. exact H.
  - intros t w _ Hc. discriminate Hc.
  - intros w H. exact H.
  - apply any_sample_actions.
Qed.

(** X1. Whatever is done on the page, once it has rendered the timer
    that closes the toast is pending, with a delay of 3000 ms, exactly
    when a toast is shown; and when that timer fires the toast is gone
    and no timer is left. *)
Theorem toast_closes_by_itself (api : option string)
  (actions : list Action) :
  let w := exec (run api actions) mounted in
  let w' := exec (run api (actions ++ [Background ToastTimeout])) mounted in
  toast_timer w = match toast (ui w) with
                  | Some _ => Some 3000
                  | None => None
                  end /\
  toast (ui w') = None /\ toast_timer w' = None.
Proof.
  intros w w'.
  assert (Hm : toast_timed mounted) by (intros _; reflexivity).
  assert (Hw : toast_timer w = match toast (ui w) with
                               | Some _ => Some 3000
                               | None => None
                               end).
  { apply (toast_timed_run api actions mounted Hm).
    apply (run_rendered api actions mounted mounted_rendered). }
  split; [exact Hw|].
  assert (Hgone : toast (ui w') = None).
  { subst w'. rewrite run_app. fold w. rewrite run_cons. cbn [run exec ret snd].
    rewrite render_toast. cbn [act dispatch]. unfold exec.
    destruct (toast_timer w) eqn:Ht; [reflexivity|].
    cbn. destruct (toast (ui w)); [discriminate Hw | reflexivity]. }
  split; [exact Hgone|].
  assert (H : toast_timed w')
    by apply (toast_timed_run api (actions ++ [Background ToastTimeout])
                mounted Hm).
  rewrite H, Hgone; [reflexivity|].
  apply (run_rendered api _ mounted mounted_rendered).
Qed.

(** ** The interval and the progress *)

Lemma interval_tracks_loading_render :
  respects (keeps interval_tracks_loading) render.
Proof.
  intros w. unfold keeps, interval_tracks_loading.
  render_cases w; intros H; try exact H; try reflexivity; now auto.
Qed.

Lemma interval_tracks_loading_tick u :
  respects (keeps interval_tracks_loading) (dispatch (Tick u)).
Proof.
  intros [s [[|]|] [d|] tc tt tr]; unfold keeps, interval_tracks_loading;
    cbn; intros H; try exact H.
  destruct H as [H _]. discriminate H.
Qed.

Lemma interval_tracks_loading_run api actions :
  respects (keeps interval_tracks_loading) (run api actions).
Proof.
  apply (page_run (keeps interval_tracks_loading) (keeps_refl _)
           (keeps_trans _) any_sample).
  - intros f w H. unfold validateAndSetFile.
    destruct (includes validTypes (type f)); exact H.
  - intros b w H. exact H.
  - intros w H. cbn. destruct (toast_timer w); exact H.
  - apply interval_tracks_loading_render.
  - intros u _. apply interval_tracks_loading_tick.
  - intros b w H. exact H.
  - intros e w H. exact H.
  - intros text w H. exact H.
  - intros t w H. exact H.
  - intros w H. exact H.
  - apply any_sample_actions.
Qed.

(** X2. Whatever is done on the page, once it has rendered the interval
    of the animation is pending, with its period of 500 ms, exactly
    while [loading] is true: no interval is left behind by an extraction
    that has ended, and none is missing from one under way.  While
    [loading] is false the progress is 100. *)
Theorem interval_runs_exactly_while_loading (api : option string)
  (actions : list Action) :
  let w := exec (run api actions) mounted in
  interval w = (if loading (ui w) then Some 500 else None) /\
  (loading (ui w) = false -> progress (ui w) = 100).
Proof.
  intros w.
  assert (Hm : interval_tracks_loading mounted) by (split; reflexivity).
  assert (H : interval_tracks_loading w)
    by apply (interval_tracks_loading_run api actions mounted Hm).
  assert (Hs : settled w)
    by apply (run_rendered api actions mounted mounted_rendered).
  unfold interval_tracks_loading in H.
  unfold settled in Hs. rewrite Hs in H.
  destruct (loading (ui w)).
  - split; [exact H | discriminate].
  - destruct H as [H1 H2]. split; [exact H1 | now intros _].
Qed.






(** ** The extraction call as a whole *)

(** X4. [performOCR] never throws: every error is caught.  With a file
    selected it either returns, and then [loading] is false, or is
    still waiting at the end of the run, and then [loading] is true. *)
Theorem performOCR_never_throws (api : option string) (net : Network)
  (w : World) :
  (forall e, fst (performOCR api net w) <> Thrown e) /\
  (forall f,
      file (ui w) = Some f ->
      loading (ui (exec (performOCR api net) w)) =
      match fst (performOCR api net w) with
      | Suspended => true
      | _ => false
      end).
Proof.
  destruct (file (ui w)) as [f|] eqn:Hf.
  - destruct (performOCR_ends api net w f Hf) as (X & HX & Hcases).
    destruct (waiting_facts api net f w X HX) as (_ & _ & _ & _ & Hl).
    unfold exec.
    destruct Hcases as [H|[[e H]|[text H]]]; rewrite H; cbn [fst snd];
      (split; [discriminate | intros _ _; try exact Hl; reflexivity]).
  - split; [|discriminate]. intros e.
    unfold performOCR, bind, get. rewrite Hf. discriminate.
Qed.

Lemma performOCR_never_throws_witness :
  loading (ui (exec (performOCR None (hangs [])) (dropped scan_png))) = true /\
  loading (ui (exec (performOCR None offline) (dropped scan_png))) = false.
Proof.
  split.
  - apply (proj2 (performOCR_never_throws None (hangs []) (dropped scan_png))
             scan_png eq_refl).
  - apply (proj2 (performOCR_never_throws None offline (dropped scan_png))
             scan_png eq_refl).
Defined.

Lemma own_property_missing fields key :
  ~ In key (map fst fields) -> own_property fields key = Undefined.
Proof.
  induction fields as [|[k v] rest IH]; cbn; [reflexivity|].
  intros H. rewrite IH by tauto.
  destruct (String.eqb_spec k key); [tauto | reflexivity].
Qed.

(** X5. A successful response whose JSON body is not [null] and has no
    [text] field is not treated as an error: the call returns, raises no
    toast and logs nothing, and the extracted text becomes
    [undefined]. *)
Theorem response_without_text_is_no_error (api : option string)
  (net : Network) (w : World) (f : File) (r : Response) (data : JSON) :
  file (ui w) = Some f ->
  settles (net (extraction_request api f)) = Normal r ->
  ok r = true ->
  settles (json r) = Normal data ->
  lacks_text data ->
  let w' := exec (performOCR api net) w in
  fst (performOCR api net w) = Normal tt /\
  extractedText (ui w') = Undefined /\
  toasts (trace w') = toasts (trace w) /\
  console_errors (trace w') = console_errors (trace w).
Proof.
  intros Hf Hnet Hok Hjson Hdata w'.
  assert (Htext : get_text data = inl Undefined).
  { destruct data; try reflexivity; [contradiction|].
    cbn. now rewrite own_property_missing. }
  subst w'. unfold exec.
  rewrite (performOCR_eq api net w f Hf), Hnet, Hok, Hjson, Htext.
  cbn [fst snd].
  destruct (waiting_facts api net f w (received api net f w r))
    as (_ & Ht & Hc & _); [right; now exists r|].
  now repeat split.
Qed.

Lemma response_without_text_is_no_error_witness :
  let w' := exec (performOCR None
                    (answers 200 (JObject [("result", JString "Hello")])))
              (dropped scan_png) in
  extractedText (ui w') = Undefined /\ toasts (trace w') = [].
Proof.
  destruct (response_without_text_is_no_error None
              (answers 200 (JObject [("result", JString "Hello")]))
              (dropped scan_png) scan_png
              {| status := 200;
                 json := {| meanwhile := [];
                            settles :=
                              Normal (JObject [("result",
                                                JString "Hello")]) |} |}
              (JObject [("result", JString "Hello")])
              eq_refl eq_refl eq_refl eq_refl)
    as (_ & H1 & H2 & _).
  - cbn. intros [H|[]]. discriminate H.
  - split; assumption.
Defined.

Lemma drop_selects g w :
  includes validTypes (type g) = true ->
  file (ui (exec (dispatch (Drop [g])) w)) = Some g.
Proof.
  intros Hg. cbn [dispatch]. unfold handleDrop, exec.
  rewrite bind_total by apply total_modify_ui.
  unfold validateAndSetFile. now rewrite Hg.
Qed.

(** X6. A file chosen while the response is awaited does not stop the
    call: the request still carries the file selected at the click, and
    when the text arrives it is shown although the other file is now the
    selected one. *)
Theorem text_arrives_for_the_file_sent (api : option string) (net : Network)
  (w : World) (f g : File) (evs : list Event) (r : Response) (data : JSON)
  (text : value) :
  file (ui w) = Some f ->
  includes validTypes (type g) = true ->
  meanwhile (net (extraction_request api f)) = (evs ++ [Drop [g]])%list ->
  settles (net (extraction_request api f)) = Normal r ->
  ok r = true ->
  meanwhile (json r) = [] ->
  settles (json r) = Normal data ->
  get_text data = inl text ->
  let w' := exec (performOCR api net) w in
  file (ui w') = Some g /\
  extractedText (ui w') = text /\
  requests (trace w') =
    (requests (trace w) ++
     [{| url := or_else api "http://localhost:8000" ++ "/extract-text";
         method := "POST";
         body := [("file", f)] |}])%list.
Proof.
  intros Hf Hg Hevs Hnet Hok Hevs' Hjson Htext w'.
  assert (Hfile : file (ui (received api net f w r)) = Some g).
  { unfold received. rewrite Hevs'. cbn [run_events].
    change (exec (ret tt) (exec render (sent api net f w))) with
      (exec render (sent api net f w)).
    destruct (render_document (sent api net f w)) as [-> _].
    unfold sent. rewrite Hevs, run_events_app, run_events_cons.
    cbn [run_events].
    match goal with
    | |- file (ui (exec (ret tt) (exec render ?X))) = _ =>
        change (exec (ret tt) (exec render X)) with (exec render X);
        destruct (render_document X) as [-> _]
    end.
    now apply drop_selects. }
  destruct (waiting_facts api net f w (received api net f w r))
    as (Hreq & _); [right; now exists r|].
  subst w'. unfold exec.
  rewrite (performOCR_eq api net w f Hf), Hnet, Hok, Hjson, Htext.
  cbn [snd]. split; [exact Hfile | split; [reflexivity | exact Hreq]].
Qed.

Lemma text_arrives_for_the_file_sent_witness :
  let other := {| name := "b.pdf"; type := "application/pdf"; bytes := [] |} in
  let net : Network :=
    fun _ =>
      {| meanwhile := [Drop [other]];
         settles :=
           Normal {| status := 200;
                     json := {| meanwhile := [];
                                settles :=
                                  Normal (JObject [("text",
                                                    JString "Hello")]) |} |} |} in
  let w' := exec (performOCR None net) (dropped scan_png) in
  file (ui w') = Some other /\
  extractedText (ui w') = Str "Hello" /\
  requests (trace w') = [extraction_request None scan_png].
Proof.
  intros other net.
  apply (text_arrives_for_the_file_sent None net (dropped scan_png) scan_png
           other [] _ (JObject [("text", JString "Hello")]) (Str "Hello")
           eq_refl eq_refl eq_refl eq_refl eq_refl eq_refl eq_refl eq_refl).
Defined.

(** ** The buttons of the action bar *)

Lemma render_at_rest w : rendered w -> exec render w = w.
Proof.
  unfold rendered, settled. intros [Hc Hs]. revert Hc Hs.
  render_cases w; cbn; intros Hc Hs; try discriminate; reflexivity.
Qed.

Lemma clicks_are_dead api more :
  Forall is_click more ->
  forall w, rendered w -> loading (ui w) = true ->
            exec (run api more) w = w.
Proof.
  induction 1 as [|a rest Ha _ IH]; intros w Hw Hl; [reflexivity|].
  rewrite run_cons.
  assert (Hact : exec (act api a) w = w).
  { destruct a as [ev|net|]; [contradiction| |];
      unfold exec; cbn [act]; unfold bind, get, buttons_disabled;
      rewrite Hl; now destruct (file (ui w)). }
  rewrite Hact, (render_at_rest w Hw). now apply IH.
Qed.

(** X7. While a request is pending the two buttons are dead: whatever
    clicks on them follow the click that started the extraction, the
    page is as that click left it, and in particular no second request
    is sent and the selection is not reset. *)
Theorem clicks_wait_for_the_response (api : option string) (net : Network)
  (w : World) (f : File) (more : list Action) :
  file (ui w) = Some f ->
  idle w ->
  settles (net (extraction_request api f)) = Suspended ->
  Forall is_click more ->
  exec (run api (ClickExtract net :: more)) w =
  exec (run api [ClickExtract net]) w.
Proof.
  intros Hf Hw Hp Hmore.
  change (ClickExtract net :: more) with ([ClickExtract net] ++ more)%list.
  rewrite run_app. apply clicks_are_dead; [exact Hmore| |].
  - rewrite run_cons. apply render_rendered.
  - now destruct (click_pending api net w f Hf Hw Hp) as [Hl _].
Qed.

Lemma clicks_wait_for_the_response_witness :
  requests
    (trace (exec (run None [ClickExtract (hangs []); ClickExtract offline;
                            ClickReset])
              (dropped scan_png))) =
  [extraction_request None scan_png].
Proof.
  rewrite (clicks_wait_for_the_response None (hangs []) (dropped scan_png)
             scan_png [ClickExtract offline; ClickReset]
             eq_refl (conj eq_refl eq_refl) eq_refl).
  - reflexivity.
  - repeat constructor.
Defined.

(** X8. A click on the reset button of a page that is not loading
    deselects the file and empties the extracted text, and nothing
    else of what is shown; the extraction button is then dead, so that
    a click on it sends nothing. *)
Theorem reset_clears_the_page (api : option string) (net : Network)
  (w : World) (f : File) :
  file (ui w) = Some f ->
  rendered w ->
  loading (ui w) = false ->
  let w' := exec (run api [ClickReset]) w in
  ui w' =
    {| file := None; extractedText := Str ""; loading := false;
       progress := progress (ui w); isDragging := isDragging (ui w);
       toast := toast (ui w) |} /\
  trace w' = trace w /\
  exec (run api [ClickReset; ClickExtract net]) w = w'.
Proof.
  intros Hf Hw Hl w'.
  assert (Hreset : exec (act api ClickReset) w =
                   exec (setExtractedText (Str "")) (exec (setFile None) w)).
  { unfold exec. cbn [act]. unfold bind at 1, get, buttons_disabled.
    now rewrite Hf, Hl. }
  assert (Hrest : rendered
                    (exec (setExtractedText (Str "")) (exec (setFile None) w)))
    by exact Hw.
  assert (Hw' : w' = exec (setExtractedText (Str ""))
                       (exec (setFile None) w)).
  { subst w'. rewrite run_cons, Hreset, (render_at_rest _ Hrest).
    reflexivity. }
  split; [|split].
  - rewrite Hw'. cbn. now rewrite Hl.
  - now rewrite Hw'.
  - change [ClickReset; ClickExtract net] with
      ([ClickReset] ++ [ClickExtract net])%list.
    rewrite run_app. fold w'. rewrite run_cons.
    assert (Hdead : exec (act api (ClickExtract net)) w' = w').
    { rewrite Hw'. reflexivity. }
    rewrite Hdead. cbn [run exec ret snd]. apply render_at_rest.
    rewrite Hw'. exact Hrest.
Qed.

Lemma reset_clears_the_page_witness :
  let w' := exec (run None [ClickReset]) (dropped scan_png) in
  file (ui w') = None /\
  exec (run None [ClickReset; ClickExtract offline]) (dropped scan_png) = w'.
Proof.
  destruct (reset_clears_the_page None offline (dropped scan_png) scan_png
              eq_refl (conj eq_refl eq_refl) eq_refl) as (H1 & _ & H3).
  split; [now rewrite H1 | exact H3].
Defined.

(** ** Pasting and copying *)

(** X9. A paste that brings no entry both of an image type and with a
    file (text, say, or nothing at all) is ignored in silence: the page
    is exactly as before, with no alert. *)
Theorem paste_without_image_file_is_ignored
  (items : list DataTransferItem) (now : Z) (w : World) :
  Forall passed_over items ->
  handlePaste (Some items) now w = (Normal tt, w) /\
  handlePaste None now w = (Normal tt, w).
Proof.
  intros Hitems. split; [|reflexivity]. cbn [handlePaste].
  rewrite <- (app_nil_r items), paste_loop_skips; [reflexivity|].
  eapply Forall_impl; [|exact Hitems].
  intros item [H|H]; [left | now right].
  unfold image_typed. now rewrite H.
Qed.

Lemma paste_without_image_file_is_ignored_witness :
  handlePaste
    (Some [{| item_type := "text/plain"; getAsFile := None |}; svg_text])
    1730000000000 (dropped scan_png) =
  (Normal tt, dropped scan_png).
Proof.
  apply (proj1 (paste_without_image_file_is_ignored
                  [{| item_type := "text/plain"; getAsFile := None |};
                   svg_text]
                  1730000000000 (dropped scan_png)
                  ltac:(repeat constructor; now right))).
Defined.



(** * Saving the text *)

Module DownloadFacts.
Import Download.

(** [trimStart] drops a prefix of blanks and stops at the first code
    unit that is not one. *)
Lemma trimStart_suffix s :
  exists blanks,
    s = (blanks ++ trimStart s)%list /\ forallb is_blank blanks = true.
Proof.
  induction s as [|c rest (blanks & Hs & Hb)]; cbn [trimStart].
  - now exists [].
  - destruct (is_blank c) eqn:Hc.
    + exists (c :: blanks). cbn. rewrite Hc, Hb. now rewrite Hs at 1.
    + now exists [].
Qed.

Lemma trimStart_head s c rest :
  trimStart s = c :: rest -> is_blank c = false.
Proof.
  induction s as [|a s IH]; cbn [trimStart]; [discriminate|].
  destruct (is_blank a) eqn:Ha; [exact IH|]. now intros [= <- _].
Qed.

Lemma trimStart_fixed c rest :
  is_blank c = false -> trimStart (c :: rest) = c :: rest.
Proof. intros H. cbn. now rewrite H. Qed.

Lemma trimEnd_prefix s : exists blanks, s = (trimEnd s ++ blanks)%list.
Proof.
  destruct (trimStart_suffix (rev s)) as (blanks & Hs & _).
  exists (rev blanks). unfold trimEnd.
  rewrite <- rev_app_distr, <- Hs. now rewrite rev_involutive.
Qed.

Lemma trim_within s c : In c (trim s) -> In c s.
Proof.
  intros H. unfold trim in H.
  destruct (trimEnd_prefix (trimStart s)) as (after & Ha).
  destruct (trimStart_suffix s) as (before & Hb & _).
  rewrite Hb, Ha, !in_app_iff. auto.
Qed.

Lemma trim_head s c rest : trim s = c :: rest -> is_blank c = false.
Proof.
  intros H. unfold trim in H.
  destruct (trimEnd_prefix (trimStart s)) as (after & Ha).
  rewrite H in Ha. now apply (trimStart_head s c (rest ++ after)).
Qed.

Lemma trim_blank s : forallb is_blank s = true -> trim s = [].
Proof.
  intros H. unfold trim.
  assert (Hs : trimStart s = []).
  { induction s as [|c rest IH]; [reflexivity|].
    cbn in *. apply andb_prop in H. destruct H as [-> H]. now apply IH. }
  now rewrite Hs.
Qed.

(** A line with no blank at either end is left as it is. *)
Lemma trim_clean first middle last :
  is_blank first = false -> is_blank last = false ->
  trim (first :: middle ++ [last]) = first :: middle ++ [last].
Proof.
  intros Hf Hl. unfold trim. rewrite trimStart_fixed by exact Hf.
  unfold trimEnd.
  change (first :: middle ++ [last])%list
    with ((first :: middle) ++ [last])%list.
  rewrite rev_app_distr. cbn [rev app].
  rewrite trimStart_fixed by exact Hl.
  change (last :: rev middle ++ [first])%list
    with (rev [last] ++ rev (first :: middle))%list.
  now rewrite <- rev_app_distr, rev_involutive.
Qed.

Lemma first_line_has_no_line_feed s : ~ In 10%N (fst (split_lines s)).
Proof.
  induction s as [|c rest IH]; cbn; [tauto|].
  destruct (split_lines rest) as [piece pieces].
  destruct (N.eqb_spec c 10); cbn in *; tauto.
Qed.

Lemma first_line_of line rest :
  ~ In 10%N line -> fst (split_lines (line ++ 10%N :: rest)%list) = line.
Proof.
  induction line as [|c line IH]; intros H; cbn.
  - now destruct (split_lines rest).
  - cbn in H. specialize (IH ltac:(tauto)).
    destruct (split_lines (line ++ 10%N :: rest)%list) as [piece pieces].
    destruct (N.eqb_spec c 10); [tauto|]. cbn in *. now rewrite IH.
Qed.

Lemma first_line_alone line :
  ~ In 10%N line -> fst (split_lines line) = line.
Proof.
  induction line as [|c line IH]; intros H; cbn; [reflexivity|].
  cbn in H. specialize (IH ltac:(tauto)).
  destruct (split_lines line) as [piece pieces].
  destruct (N.eqb_spec c 10); [tauto|]. cbn in *. now rewrite IH.
Qed.

(** X11. Whatever the text, the name it is saved under is a base
    followed by [.txt], where the base has from 1 to 50 code units,
    contains no line feed and does not begin with a blank; and when the
    first line of the text is blank or empty the name is
    [extracted_text.txt], whatever the other lines hold. *)
Theorem fileName_is_well_formed (extractedText : jsstring) :
  (exists base,
      fileName extractedText = (base ++ lit ".txt")%list /\
      (1 <= length base <= 50)%nat /\
      ~ In 10%N base /\
      (forall c rest, base = c :: rest -> is_blank c = false)) /\
  (forallb is_blank (fst (split_lines extractedText)) = true ->
   fileName extractedText = lit "extracted_text.txt").
Proof.
  split.
  - unfold fileName, substring. cbn [skipn Nat.sub].
    set (line := fst (split_lines extractedText)).
    destruct (firstn 50 (trim line)) as [|c rest] eqn:Hcut.
    + exists (lit "extracted_text"). split; [reflexivity|].
      split; [cbn; lia|]. split.
      * cbn. intuition discriminate.
      * intros c rest H. cbn in H. injection H as <- _. reflexivity.
    + exists (c :: rest). split; [reflexivity|]. split; [|split].
      * rewrite <- Hcut, length_firstn. cbn [length].
        assert (length (firstn 50 (trim line)) = S (length rest))
          by now rewrite Hcut.
        rewrite length_firstn in H. lia.
      * intros Hin. apply (first_line_has_no_line_feed extractedText).
        fold line. apply trim_within.
        rewrite <- (firstn_skipn 50 (trim line)), Hcut, in_app_iff. now left.
      * intros c' rest' [= <- <-].
        destruct (trim line) as [|c' rest'] eqn:Htrim; [discriminate|].
        cbn in Hcut. injection Hcut as <- _.
        exact (trim_head line c' rest' Htrim).
  - intros Hblank. unfold fileName, substring. cbn [skipn Nat.sub].
    now rewrite trim_blank.
Qed.

Lemma fileName_is_well_formed_witness :
  fileName (lit "   " ++ 10%N :: lit "Hello")%list = lit "extracted_text.txt".
Proof.
  apply (proj2 (fileName_is_well_formed
                  (lit "   " ++ 10%N :: lit "Hello")%list)).
  reflexivity.
Defined.

(** X12. A first line of at most 50 code units with no blank at either
    end is the name, as it is, followed by [.txt], whether or not other
    lines follow it. *)
Theorem fileName_keeps_a_short_first_line
  (first last : N) (middle rest : jsstring) :
  is_blank first = false ->
  is_blank last = false ->
  ~ In 10%N middle ->
  (length middle <= 48)%nat ->
  let line := (first :: middle ++ [last])%list in
  fileName line = (line ++ lit ".txt")%list /\
  fileName (line ++ 10%N :: rest)%list = (line ++ lit ".txt")%list.
Proof.
  intros Hf Hl Hm Hlen line.
  assert (Hline : ~ In 10%N line).
  { subst line. cbn. rewrite in_app_iff. cbn.
    intros [H|[H|[H|[]]]]; subst; try discriminate; tauto. }
  assert (Hcut : firstn 50 (trim line) = line).
  { subst line. rewrite trim_clean by assumption.
    apply firstn_all2. cbn. rewrite length_app. cbn. lia. }
  unfold fileName, substring. cbn [skipn Nat.sub].
  rewrite (first_line_of line rest Hline), (first_line_alone line Hline), Hcut.
  now subst line.
Qed.

Lemma fileName_keeps_a_short_first_line_witness :
  fileName (lit "Hello world" ++ 10%N :: lit "second line")%list =
  lit "Hello world.txt".
Proof.
  apply (proj2 (fileName_keeps_a_short_first_line
                  72%N 100%N (lit "ello worl") (lit "second line")
                  eq_refl eq_refl
                  ltac:(cbn; intuition discriminate)
                  ltac:(cbn; lia))).
Defined.



End DownloadFacts.

(** * Accounts of a whole history *)







(** ** The text and the selection *)

Lemma has_file_performOCR api net :
  respects (keeps has_file) (performOCR api net).
Proof.
  apply (page_performOCR (keeps has_file) (keeps_refl _) (keeps_trans _)
           any_sample).
  - intros f w H. unfold validateAndSetFile.
    destruct (includes validTypes (type f)); [discriminate | exact H].
  - intros b w H. exact H.
  - intros w H. cbn. destruct (toast_timer w); exact H.
  - intros w H. unfold has_file.
    destruct (render_document w) as [Hf _].
    unfold exec in Hf. now rewrite Hf.
  - intros u _ w H. cbn. destruct (interval w); exact H.
  - intros b w H. exact H.
  - intros e w H. exact H.
  - intros text w H. exact H.
  - intros t w H. exact H.
  - apply any_sample_network.
Qed.

Lemma text_needs_file_dispatch ev :
  respects (keeps text_needs_file) (dispatch ev).
Proof.
  apply respects_dispatch.
  - apply keeps_refl.
  - apply keeps_trans.
  - intros f w H. unfold validateAndSetFile.
    destruct (includes validTypes (type f)); [discriminate | exact H].
  - intros b w H. exact H.
  - intros w H. cbn. destruct (toast_timer w); exact H.
  - intros u w H. cbn. destruct (interval w); exact H.
Qed.

Lemma text_needs_file_run api actions :
  respects (keeps text_needs_file) (run api actions).
Proof.
  induction actions as [|a rest IH]; intros w Hw; [exact Hw|].
  change (snd (run api (a :: rest) w)) with (exec (run api (a :: rest)) w).
  rewrite run_cons. apply IH.
  assert (Hact : text_needs_file (exec (act api a) w)).
  { destruct a as [ev|net|].
    - exact (text_needs_file_dispatch ev w Hw).
    - unfold exec. cbn [act]. unfold bind, get.
      destruct (buttons_disabled (ui w)) eqn:Hoff; [exact Hw|].
      intros Hnone. exfalso.
      apply (has_file_performOCR api net w); [|exact Hnone].
      unfold has_file. unfold buttons_disabled in Hoff.
      now destruct (file (ui w)).
    - unfold exec. cbn [act]. unfold bind, get.
      destruct (buttons_disabled (ui w)); [exact Hw | now intros _]. }
  intros Hnone. destruct (render_document (exec (act api a) w)) as [Hf Hx].
  rewrite Hx. apply Hact. now rewrite <- Hf.
Qed.

(** X15. In every history of the page, text is shown only while a file
    is selected: whenever no file is selected the extracted text is the
    empty string. *)
Theorem no_text_without_a_file (api : option string)
  (actions : list Action) :
  let w := exec (run api actions) mounted in
  file (ui w) = None -> extractedText (ui w) = Str "".
Proof.
  intros w. apply (text_needs_file_run api actions mounted).
  now intros _.
Qed.

Lemma no_text_without_a_file_witness :
  extractedText
    (ui (exec (run None
                 [Background (Drop [scan_png]);
                  ClickExtract (answers 200 (JObject [("text", JString "Hi")]));
                  ClickReset])
           mounted)) = Str "".
Proof.
  apply (no_text_without_a_file None
           [Background (Drop [scan_png]);
            ClickExtract (answers 200 (JObject [("text", JString "Hi")]));
            ClickReset]).
  reflexivity.
Defined.
